(** * Schema inference for Go types (package avro, infer.go)

    A shallow embedding of [inferType], [inferSchema] and [InferSchema]
    together with the part of [encoding/json] that renders a
    [TypedSchema], and the properties of the inference that the
    specification states.

    Modelling choices.
    - A [reflect.Type] is a finite tree ([rtype]): the walk of
      [inferSchema] only terminates on such types.  The input of
      [InferSchema] is the dynamic type of a non-nil value.
    - A Go result pair [(x, err)] is a pair whose second component is an
      [option error]; [None] is [err == nil].
    - Package [structtag] is not part of the repository: its [Parse] and
      [Get] are parameters of the development.  A reference parser for
      the conventional [key:"name,opt,..."] syntax instantiates them in
      the examples.
    - The escaping of a JSON string is a parameter of the renderer. *)

From Stdlib Require Import String Ascii List Bool Arith.
Import ListNotations.
Open Scope string_scope.
Set Warnings "-register-all".

(** ** Package reflect: kinds and types *)

Module reflect.

(** The kinds of [reflect.Kind] below which [inferSchema] never looks. *)
Inductive LeafKind :=
| Invalid | Bool
| Int | Int8 | Int16 | Int32 | Int64
| Uint | Uint8 | Uint16 | Uint32 | Uint64 | Uintptr
| Float32 | Float64 | Complex64 | Complex128
| Array | Chan | Func | Interface | String | UnsafePointer.

(** [reflect.Kind]: the four kinds [inferSchema] recurses through, and
    the others. *)
Inductive Kind :=
| Ptr | Struct | Slice | Map
| Leaf (k : LeafKind).

Definition LeafKind_eqb (a b : LeafKind) : bool :=
  match a, b with
  | Invalid, Invalid | Bool, Bool
  | Int, Int | Int8, Int8 | Int16, Int16 | Int32, Int32 | Int64, Int64
  | Uint, Uint | Uint8, Uint8 | Uint16, Uint16 | Uint32, Uint32
  | Uint64, Uint64 | Uintptr, Uintptr
  | Float32, Float32 | Float64, Float64
  | Complex64, Complex64 | Complex128, Complex128
  | Array, Array | Chan, Chan | Func, Func | Interface, Interface
  | String, String | UnsafePointer, UnsafePointer => true
  | _, _ => false
  end.

Definition Kind_eqb (a b : Kind) : bool :=
  match a, b with
  | Ptr, Ptr | Struct, Struct | Slice, Slice | Map, Map => true
  | Leaf x, Leaf y => LeafKind_eqb x y
  | _, _ => false
  end.

(** [Kind.String()], the table [kindNames] of package reflect. *)
Definition Kind_String (k : Kind) : string :=
  match k with
  | Ptr => "ptr" | Struct => "struct" | Slice => "slice" | Map => "map"
  | Leaf Invalid => "invalid" | Leaf Bool => "bool"
  | Leaf Int => "int" | Leaf Int8 => "int8" | Leaf Int16 => "int16"
  | Leaf Int32 => "int32" | Leaf Int64 => "int64"
  | Leaf Uint => "uint" | Leaf Uint8 => "uint8" | Leaf Uint16 => "uint16"
  | Leaf Uint32 => "uint32" | Leaf Uint64 => "uint64"
  | Leaf Uintptr => "uintptr"
  | Leaf Float32 => "float32" | Leaf Float64 => "float64"
  | Leaf Complex64 => "complex64" | Leaf Complex128 => "complex128"
  | Leaf Array => "array" | Leaf Chan => "chan" | Leaf Func => "func"
  | Leaf Interface => "interface" | Leaf String => "string"
  | Leaf UnsafePointer => "unsafe.Pointer"
  end.

End reflect.

(** [reflect.StructField]: the declared identifier, the raw tag text and
    the field's own type. *)
Module StructField.
Record t (T : Type) := mk { Name : string; Tag : string; Type_ : T }.
Arguments mk {T} _ _ _.
Arguments Name {T} _.
Arguments Tag {T} _.
Arguments Type_ {T} _.
End StructField.

(** [reflect.Type], as far as [inferSchema] inspects it.  [name] is what
    [t.Name()] returns: the empty string for an unnamed type. *)
Inductive rtype :=
| TPtr (name : string) (elem : rtype)
| TStruct (name : string) (fields : list (StructField.t rtype))
| TSlice (name : string) (elem : rtype)
| TMap (name : string) (key elem : rtype)
| TLeaf (name : string) (k : reflect.LeafKind).

Definition type_Name (t : rtype) : string :=
  match t with
  | TPtr n _ | TStruct n _ | TSlice n _ | TMap n _ _ | TLeaf n _ => n
  end.

Definition type_Kind (t : rtype) : reflect.Kind :=
  match t with
  | TPtr _ _ => reflect.Ptr
  | TStruct _ _ => reflect.Struct
  | TSlice _ _ => reflect.Slice
  | TMap _ _ _ => reflect.Map
  | TLeaf _ k => reflect.Leaf k
  end.

(** The type literal [*T]: a pointer type without a name of its own. *)
Definition PtrTo (T : rtype) : rtype := TPtr "" T.

(** Induction on types, with the hypothesis for every field of a struct. *)
Section rtype_induction.
Variable P : rtype -> Prop.
Hypothesis HPtr : forall n e, P e -> P (TPtr n e).
Hypothesis HStruct :
  forall n fs, Forall (fun f => P (StructField.Type_ f)) fs -> P (TStruct n fs).
Hypothesis HSlice : forall n e, P e -> P (TSlice n e).
Hypothesis HMap : forall n k e, P k -> P e -> P (TMap n k e).
Hypothesis HLeaf : forall n k, P (TLeaf n k).

Fixpoint rtype_fields_ind (t : rtype) : P t :=
  match t with
  | TPtr n e => HPtr n e (rtype_fields_ind e)
  | TStruct n fs =>
      HStruct n fs
        ((fix all (l : list (StructField.t rtype)) :
            Forall (fun f => P (StructField.Type_ f)) l :=
            match l with
            | [] => Forall_nil _
            | f :: r =>
                Forall_cons f
                  (match f return P (StructField.Type_ f) with
                   | StructField.mk _ _ ty => rtype_fields_ind ty
                   end)
                  (all r)
            end) fs)
  | TSlice n e => HSlice n e (rtype_fields_ind e)
  | TMap n k e => HMap n k e (rtype_fields_ind k) (rtype_fields_ind e)
  | TLeaf n k => HLeaf n k
  end.
End rtype_induction.

(** ** Errors *)

(** [errors.New(msg)] (also [fmt.Errorf] without [%w]) and
    [fmt.Errorf(prefix + "%w", err)]. *)
Inductive error :=
| errorString (msg : string)
| wrapError (prefix : string) (err : error).

(** The method [Error()]. *)
Fixpoint Error (e : error) : string :=
  match e with
  | errorString m => m
  | wrapError p e' => p ++ Error e'
  end.

(** [errors.Unwrap], applied until the innermost error is reached. *)
Fixpoint root_cause (e : error) : error :=
  match e with
  | errorString m => errorString m
  | wrapError _ e' => root_cause e'
  end.

(** The names the specification gives to the two errors created in
    infer.go. *)
Definition InvalidMapKey : error := errorString "map key must be string".
Definition UnsupportedKind (k : reflect.Kind) : error :=
  errorString ("unsupported type: " ++ reflect.Kind_String k).

(** ** The schema node *)

(** [TypedSchema], and the values its [interface{}] fields and
    [[]interface{}] slices hold: nil, a string, a nested node, or a
    slice of such values. *)
Inductive TypedSchema :=
| mkTypedSchema (Name : string) (Type_ : iface) (types items : list iface)
    (Items : iface) (values : list iface) (Values : iface)
    (Fields : list TypedSchema)
with iface :=
| Nil
| Str (s : string)
| Schema (s : TypedSchema)
| List (l : list iface).

Module TS.
Definition Name (s : TypedSchema) :=
  match s with mkTypedSchema x _ _ _ _ _ _ _ => x end.
Definition Type_ (s : TypedSchema) :=
  match s with mkTypedSchema _ x _ _ _ _ _ _ => x end.
Definition types (s : TypedSchema) :=
  match s with mkTypedSchema _ _ x _ _ _ _ _ => x end.
Definition items (s : TypedSchema) :=
  match s with mkTypedSchema _ _ _ x _ _ _ _ => x end.
Definition Items (s : TypedSchema) :=
  match s with mkTypedSchema _ _ _ _ x _ _ _ => x end.
Definition values (s : TypedSchema) :=
  match s with mkTypedSchema _ _ _ _ _ x _ _ => x end.
Definition Values (s : TypedSchema) :=
  match s with mkTypedSchema _ _ _ _ _ _ x _ => x end.
Definition Fields (s : TypedSchema) :=
  match s with mkTypedSchema _ _ _ _ _ _ _ x => x end.

Definition set_Name (s : TypedSchema) (x : string) :=
  match s with mkTypedSchema _ a b c d e f g => mkTypedSchema x a b c d e f g end.
Definition set_Type (s : TypedSchema) (x : iface) :=
  match s with mkTypedSchema n _ b c d e f g => mkTypedSchema n x b c d e f g end.
Definition set_types (s : TypedSchema) (x : list iface) :=
  match s with mkTypedSchema n a _ c d e f g => mkTypedSchema n a x c d e f g end.
Definition set_items (s : TypedSchema) (x : list iface) :=
  match s with mkTypedSchema n a b _ d e f g => mkTypedSchema n a b x d e f g end.
Definition set_Items (s : TypedSchema) (x : iface) :=
  match s with mkTypedSchema n a b c _ e f g => mkTypedSchema n a b c x e f g end.
Definition set_values (s : TypedSchema) (x : list iface) :=
  match s with mkTypedSchema n a b c d _ f g => mkTypedSchema n a b c d x f g end.
Definition set_Values (s : TypedSchema) (x : iface) :=
  match s with mkTypedSchema n a b c d e _ g => mkTypedSchema n a b c d e x g end.
Definition set_Fields (s : TypedSchema) (x : list TypedSchema) :=
  match s with mkTypedSchema n a b c d e f _ => mkTypedSchema n a b c d e f x end.

(** The zero value of the struct. *)
Definition zero : TypedSchema := mkTypedSchema "" Nil [] [] Nil [] Nil [].
End TS.

(** Induction on nodes and on the values they hold, with the hypothesis
    for every element of the slices. *)
Section TypedSchema_induction.
Variable P : TypedSchema -> Prop.
Variable Q : iface -> Prop.
Hypothesis Hnode :
  forall Name Type_ types items Items values Values Fields,
    Q Type_ -> Q Items -> Q Values -> Forall P Fields ->
    P (mkTypedSchema Name Type_ types items Items values Values Fields).
Hypothesis HNil : Q Nil.
Hypothesis HStr : forall s, Q (Str s).
Hypothesis HSchema : forall s, P s -> Q (Schema s).
Hypothesis HList : forall l, Forall Q l -> Q (List l).

Fixpoint TypedSchema_nodes_ind (s : TypedSchema) : P s :=
  match s with
  | mkTypedSchema n ty tys its it vs v fs =>
      Hnode n ty tys its it vs v fs
        (iface_nodes_ind ty) (iface_nodes_ind it) (iface_nodes_ind v)
        ((fix all (l : list TypedSchema) : Forall P l :=
            match l with
            | [] => Forall_nil _
            | x :: r => Forall_cons x (TypedSchema_nodes_ind x) (all r)
            end) fs)
  end
with iface_nodes_ind (v : iface) : Q v :=
  match v with
  | Nil => HNil
  | Str s => HStr s
  | Schema s => HSchema s (TypedSchema_nodes_ind s)
  | List l =>
      HList l
        ((fix all (l : list iface) : Forall Q l :=
            match l with
            | [] => Forall_nil _
            | x :: r => Forall_cons x (iface_nodes_ind x) (all r)
            end) l)
  end.
End TypedSchema_induction.

(** ** Package strings *)

Module strings.

Definition HasPrefix (s prefix : string) : bool := String.prefix prefix s.

(** [TrimPrefix(s, prefix)]: [s] without the leading [prefix], or [s]
    itself when it does not start with it. *)
Fixpoint TrimPrefix (s prefix : string) : string :=
  match prefix, s with
  | EmptyString, _ => s
  | String p prefix', String c s' =>
      if Ascii.eqb p c && String.prefix prefix' s' then TrimPrefix s' prefix'
      else s
  | String _ _, EmptyString => s
  end.

(** [Split(s, sep)] for a separator of one byte: the pieces of [s]
    between the occurrences of [sep]; always at least one piece. *)
Fixpoint Split (s : string) (sep : ascii) : list string :=
  match s with
  | EmptyString => [EmptyString]
  | String c rest =>
      if Ascii.eqb c sep then EmptyString :: Split rest sep
      else match Split rest sep with
           | [] => [String c EmptyString]
           | piece :: pieces => String c piece :: pieces
           end
  end.

Fixpoint Join (elems : list string) (sep : string) : string :=
  match elems with
  | [] => ""
  | [x] => x
  | x :: rest => x ++ sep ++ Join rest sep
  end.

End strings.

(** ** Package structtag: the data it hands back *)

Definition dquote : ascii := "034"%char.
Definition backslash : ascii := "092"%char.

Module structtag.

(** One [key:"name,option,..."] pair of a struct tag. *)
Record Tag := mkTag { Key : string; Name : string; Options : list string }.

(** *** A reference parser

    The conventional syntax of struct tags, as the packages reflect and
    structtag read it: pairs [key:"value"] separated by spaces, the
    value split at its commas into a name and options.  Escape
    sequences inside a value are not modelled (a backslash is a value
    syntax error here). *)

Definition errTagSyntax := errorString "bad syntax for struct tag pair".
Definition errTagKeySyntax := errorString "bad syntax for struct tag key".
Definition errTagValueSyntax := errorString "bad syntax for struct tag value".
Definition errTagNotExist := errorString "tag does not exist".

Fixpoint skipSpaces (tag : string) : string :=
  match tag with
  | String c rest => if Ascii.eqb c " " then skipSpaces rest else tag
  | EmptyString => tag
  end.

Definition keyChar (c : ascii) : bool :=
  Nat.ltb 32 (nat_of_ascii c) && negb (Ascii.eqb c ":")
  && negb (Ascii.eqb c dquote) && negb (Nat.eqb (nat_of_ascii c) 127).

(** The longest run of key characters, and what follows it. *)
Fixpoint scanKey (tag : string) : string * string :=
  match tag with
  | String c rest =>
      if keyChar c
      then let '(key, after) := scanKey rest in (String c key, after)
      else ("", tag)
  | EmptyString => ("", "")
  end.

(** The value up to the closing quote, and what follows the quote. *)
Fixpoint scanValue (tag : string) : option (string * string) :=
  match tag with
  | EmptyString => None
  | String c rest =>
      if Ascii.eqb c dquote then Some ("", rest)
      else if Ascii.eqb c backslash then None
      else match scanValue rest with
           | Some (value, after) => Some (String c value, after)
           | None => None
           end
  end.

Fixpoint parseLoop (fuel : nat) (tag : string) (tags : list Tag)
  : list Tag + error :=
  match fuel with
  | 0 => inl tags
  | S fuel =>
      match skipSpaces tag with
      | EmptyString => inl tags
      | tag =>
          match scanKey tag with
          | (EmptyString, _) => inr errTagKeySyntax
          | (key, String c1 (String c2 after)) =>
              if negb (Ascii.eqb c1 ":") then inr errTagSyntax
              else if negb (Ascii.eqb c2 dquote) then inr errTagValueSyntax
              else match scanValue after with
                   | None => inr errTagValueSyntax
                   | Some (value, tag) =>
                       let res := strings.Split value ","%char in
                       parseLoop fuel tag
                         (tags ++ [mkTag key (hd "" res) (tl res)])
                   end
          | (_, _) => inr errTagSyntax
          end
      end
  end.

Definition Tags := list Tag.

Definition Parse (tag : string) : Tags + error :=
  parseLoop (String.length tag) tag [].

(** [Get]: the first tag under the key. *)
Fixpoint Get (tags : Tags) (key : string) : Tag + error :=
  match tags with
  | [] => inr errTagNotExist
  | tag :: rest => if String.eqb (Key tag) key then inl tag else Get rest key
  end.

End structtag.

(** ** Package encoding/json, for a [TypedSchema] *)

Module json.

(** A JSON document; the members of an object are in emission order. *)
Inductive value :=
| Null
| String (s : string)
| Array (elems : list value)
| Object (members : list (string * value)).

(** The document [json.Marshal] writes for a node, following the
    [json:] tags of the struct: [name] and [type] always; [items] and
    [values] unless the interface is nil, [fields] unless the slice is
    empty ([omitempty]); the fields without a tag are not exported. *)
Fixpoint MarshalSchema (s : TypedSchema) : value :=
  match s with
  | mkTypedSchema Name Type_ _ _ Items _ Values Fields =>
      Object
        ([("name", String Name); ("type", MarshalIface Type_)]
         ++ match Items with
            | Nil => []
            | _ => [("items", MarshalIface Items)]
            end
         ++ match Values with
            | Nil => []
            | _ => [("values", MarshalIface Values)]
            end
         ++ match Fields with
            | [] => []
            | _ => [("fields", Array (map MarshalSchema Fields))]
            end)
  end
with MarshalIface (v : iface) : value :=
  match v with
  | Nil => Null
  | Str s => String s
  | Schema s => MarshalSchema s
  | List l => Array (map MarshalIface l)
  end.

(** The text of a document, without insignificant white space;
    [encodeString] writes a string with its quotes and escapes. *)
Fixpoint encode (encodeString : string -> string) (v : value) : string :=
  match v with
  | Null => "null"
  | String s => encodeString s
  | Array elems =>
      "[" ++ strings.Join (map (encode encodeString) elems) "," ++ "]"
  | Object members =>
      "{" ++ strings.Join
               (map (fun m => encodeString (fst m) ++ ":" ++ encode encodeString (snd m))
                    members) ","
          ++ "}"
  end.

(** The member of an object under a key, if the document is an object
    that has it. *)
Definition member (key : string) (v : value) : option value :=
  match v with
  | Object members =>
      option_map snd (find (fun m => String.eqb (fst m) key) members)
  | _ => None
  end.

(** Every object of the document has a member [name] that is a
    string. *)
Fixpoint named (v : value) : bool :=
  match v with
  | Null | String _ => true
  | Array elems => forallb named elems
  | Object members =>
      match find (fun m => String.eqb (fst m) "name") members with
      | Some (_, String _) => true
      | _ => false
      end
      && forallb (fun m => named (snd m)) members
  end.

End json.

(** ** inferType and inferSchema *)

Definition bar : ascii := "|"%char.

(** The [type=] options of the canonical tag: every token of every such
    option, appended in order to the field's [types]. *)
Definition typeOptions (opts : list string) : list iface :=
  flat_map
    (fun opt =>
       if strings.HasPrefix opt "type="
       then map Str (strings.Split (strings.TrimPrefix opt "type=") bar)
       else [])
    opts.

(** A loop that assigns the split tokens for every option with the given
    prefix: the last such option stays; [None] is the nil slice. *)
Definition lastOption (prefix : string) (opts : list string) : option (list string) :=
  fold_left
    (fun acc opt =>
       if strings.HasPrefix opt prefix
       then Some (strings.Split (strings.TrimPrefix opt prefix) bar)
       else acc)
    opts None.

Definition inferType (t : rtype) : string * option error :=
  match type_Kind t with
  | reflect.Leaf reflect.String => ("string", None)
  | reflect.Leaf reflect.Bool => ("boolean", None)
  | reflect.Leaf reflect.Int | reflect.Leaf reflect.Int8
  | reflect.Leaf reflect.Int16 | reflect.Leaf reflect.Int32
  | reflect.Leaf reflect.Int64 => ("int", None)
  | reflect.Leaf reflect.Uint | reflect.Leaf reflect.Uint8
  | reflect.Leaf reflect.Uint16 | reflect.Leaf reflect.Uint32
  | reflect.Leaf reflect.Uint64 => ("long", None)
  | reflect.Leaf reflect.Float32 | reflect.Leaf reflect.Float64 => ("double", None)
  | k => ("", Some (UnsupportedKind k))
  end.

(** The tail of [inferSchema]: [Type], [Items] and [Values] are set from
    the lists the switch filled. *)
Definition collapse (s : TypedSchema) : TypedSchema :=
  let s := match TS.types s with
           | [] => s
           | [x] => TS.set_Type s x
           | _ => TS.set_Type s (List (TS.types s))
           end in
  let s := match TS.items s with
           | [] => s
           | [x] => TS.set_Items s x
           | _ => TS.set_Items s (List (TS.items s))
           end in
  match TS.values s with
  | [] => s
  | [x] => TS.set_Values s x
  | _ => TS.set_Values s (List (TS.values s))
  end.

Section Inference.

(** The type [structtag.Tags], [structtag.Parse] and the method [Get] of
    [Tags]. *)
Variable Tags : Type.
Variable Parse : string -> Tags + error.
Variable Get : Tags -> string -> structtag.Tag + error.

(** What the loop body reads from the tags of one field: the resolved
    name, the [types] of the field's slot, [fieldValues] and
    [fieldItems]. *)
Definition fieldTags (fallbackTag : string) (tags : Tags) (fieldName : string)
  : string * list iface * option (list string) * option (list string) :=
  match Get tags "avro" with
  | inl tag =>
      (structtag.Name tag,
       typeOptions (structtag.Options tag),
       lastOption "values=" (structtag.Options tag),
       lastOption "items=" (structtag.Options tag))
  | inr _ =>
      match Get tags fallbackTag with
      | inl tag => (structtag.Name tag, [], None, None)
      | inr _ => (fieldName, [], None, None)
      end
  end.

(** One iteration of the loop over the fields of a struct, given the
    recursive call: the slot [s.Fields[i]] when the iteration ends, and
    the error it returns with, if any. *)
Definition inferField
    (rec : rtype -> option (list string) -> option (list string) ->
           TypedSchema * option error)
    (fallbackTag : string) (field : StructField.t rtype)
  : TypedSchema * option error :=
  match Parse (StructField.Tag field) with
  | inr err => (TS.zero, Some (wrapError "struct: " err))
  | inl tags =>
      let '(name, types, fieldValues, fieldItems) :=
        fieldTags fallbackTag tags (StructField.Name field) in
      match types with
      | [] =>
          let '(slot, err) := rec (StructField.Type_ field) fieldItems fieldValues in
          match err with
          | Some err => (slot, Some (wrapError "struct: " err))
          | None => (TS.set_Name slot name, None)
          end
      | _ => (TS.set_Name (TS.set_types TS.zero types) name, None)
      end
  end.

Fixpoint inferSchema (fallbackTag : string) (t : rtype)
    (items values : option (list string)) {struct t}
  : TypedSchema * option error :=
  let s := TS.set_Name TS.zero (type_Name t) in
  match t with
  | TPtr _ elem =>
      let '(typ, err) := inferSchema fallbackTag elem None None in
      match err with
      | Some err => (s, Some (wrapError "ptr: " err))
      | None => (collapse (TS.set_types s [Schema typ; Str "null"]), None)
      end
  | TStruct _ fields =>
      let s := TS.set_types s [Str "record"] in
      let '(slots, err) :=
        (fix loop (fs : list (StructField.t rtype))
           : list TypedSchema * option error :=
           match fs with
           | [] => ([], None)
           | field :: rest =>
               let '(slot, err) :=
                 inferField (inferSchema fallbackTag) fallbackTag field in
               match err with
               | Some err => (slot :: repeat TS.zero (length rest), Some err)
               | None => let '(slots, err) := loop rest in (slot :: slots, err)
               end
           end) fields in
      match err with
      | Some err => (TS.set_Fields s slots, Some err)
      | None => (collapse (TS.set_Fields s slots), None)
      end
  | TSlice _ elem =>
      let s := TS.set_types s [Str "array"] in
      match items with
      | Some items => (collapse (TS.set_items s (map Str items)), None)
      | None =>
          let '(typ, err) := inferSchema fallbackTag elem None None in
          match err with
          | Some err => (s, Some (wrapError "slice: " err))
          | None => (collapse (TS.set_items s [Schema typ]), None)
          end
      end
  | TMap _ key elem =>
      let s := TS.set_types s [Str "map"] in
      if negb (reflect.Kind_eqb (type_Kind key) (reflect.Leaf reflect.String))
      then (s, Some InvalidMapKey)
      else
        match values with
        | Some values => (collapse (TS.set_values s (map Str values)), None)
        | None =>
            let '(typ, err) := inferSchema fallbackTag elem None None in
            match err with
            | Some err => (s, Some (wrapError "map: " err))
            | None => (collapse (TS.set_values s [Schema typ]), None)
            end
        end
  | TLeaf _ _ =>
      let '(typ, err) := inferType t in
      match err with
      | Some err => (s, Some (wrapError "default: " err))
      | None => (collapse (TS.set_types s [Str typ]), None)
      end
  end.

(** The loop over the fields of a struct, as a function of its own:
    the slots of [s.Fields] and the error the loop stopped with. *)
Definition inferFields (fallbackTag : string)
  : list (StructField.t rtype) -> list TypedSchema * option error :=
  fix loop (fs : list (StructField.t rtype)) : list TypedSchema * option error :=
    match fs with
    | [] => ([], None)
    | field :: rest =>
        let '(slot, err) := inferField (inferSchema fallbackTag) fallbackTag field in
        match err with
        | Some err => (slot :: repeat TS.zero (length rest), Some err)
        | None => let '(slots, err) := loop rest in (slot :: slots, err)
        end
    end.

Variable encodeString : string -> string.

(** [InferSchema(fallbackTag, v)], for a value [v] of dynamic type [t].
    [json.Marshal] has no failure on a [TypedSchema]: it holds strings,
    nodes and slices of them only. *)
Definition InferSchema (fallbackTag : string) (t : rtype) : string * option error :=
  let '(s, err) := inferSchema fallbackTag t None None in
  match err with
  | Some err => ("", Some (wrapError "infer schema: " err))
  | None => (json.encode encodeString (json.MarshalSchema s), None)
  end.

End Inference.

Arguments fieldTags {Tags} Get fallbackTag tags fieldName.
Arguments inferField {Tags} Parse Get rec fallbackTag field.
Arguments inferSchema {Tags} Parse Get fallbackTag t items values.
Arguments inferFields {Tags} Parse Get fallbackTag fs.
Arguments InferSchema {Tags} Parse Get encodeString fallbackTag t.

(** ** The reference instance and the test of the repository *)

(** A string literal with its apostrophes read as double quotes. *)
Fixpoint q (s : string) : string :=
  match s with
  | EmptyString => EmptyString
  | String c rest => String (if Ascii.eqb c "'" then dquote else c) (q rest)
  end.

(** What [encoding/json] writes for a string of printable ASCII
    characters other than [<], [>] and [&]. *)
Fixpoint escape (s : string) : string :=
  match s with
  | EmptyString => EmptyString
  | String c rest =>
      if Ascii.eqb c dquote || Ascii.eqb c backslash
      then String backslash (String c (escape rest))
      else String c (escape rest)
  end.

Definition quote (s : string) : string :=
  String dquote (escape s) ++ String dquote EmptyString.

Definition inferSchema_ref := inferSchema structtag.Parse structtag.Get.
Definition InferSchema_ref := InferSchema structtag.Parse structtag.Get quote.

Definition field (name tag : string) (t : rtype) : StructField.t rtype :=
  StructField.mk name (q tag) t.

Definition string_t : rtype := TLeaf "string" reflect.String.
Definition int_t : rtype := TLeaf "int" reflect.Int.

(** The types [E] and [A] of infer_test.go. *)
Definition E_t : rtype := TStruct "E" [field "F" "" string_t].
Definition A_t : rtype :=
  TStruct "A" [field "B" "avro:'b'" string_t; field "C" "" int_t; field "E" "" E_t].


(** A channel type: a kind without a primitive name. *)
Definition chan_t : rtype := TLeaf "" reflect.Chan.

(** [map[int]string]. *)
Definition map_int_string : rtype := TMap "" int_t string_t.

(** A struct whose field, of the record type [E], overrides its type with
    the two tokens [x] and [y]; and one that overrides it with [x] alone. *)
Definition override_xy : rtype :=
  TStruct "S" [field "B" "avro:'b,type=x|y'" E_t].
Definition override_x : rtype :=
  TStruct "S" [field "B" "avro:'b,type=x'" string_t].

(** A struct with a slice of channels whose items are overridden. *)
Definition items_override : rtype :=
  TStruct "S" [field "L" "avro:'l,items=string|null'" (TSlice "" chan_t)].

Definition A_node : TypedSchema :=
  Eval vm_compute in fst (inferSchema_ref "" A_t None None).

(** ** What the specification says, in its own words *)

(** The unsigned integer kinds of Go: the five widths and [uintptr]. *)
Definition unsigned_integer_kinds : list reflect.LeafKind :=
  [reflect.Uint; reflect.Uint8; reflect.Uint16; reflect.Uint32; reflect.Uint64;
   reflect.Uintptr].

(** The table of the primitive mapper as the specification words it
    (section 4.1): [long] for any unsigned integer kind. *)
Definition spec_primitive_table : list (reflect.Kind * string) :=
  [(reflect.Leaf reflect.String, "string"); (reflect.Leaf reflect.Bool, "boolean")]
  ++ map (fun k => (reflect.Leaf k, "int"))
       [reflect.Int; reflect.Int8; reflect.Int16; reflect.Int32; reflect.Int64]
  ++ map (fun k => (reflect.Leaf k, "long")) unsigned_integer_kinds
  ++ map (fun k => (reflect.Leaf k, "double")) [reflect.Float32; reflect.Float64].

Definition spec_primitive (k : reflect.Kind) : option string :=
  option_map snd (find (fun row => reflect.Kind_eqb (fst row) k) spec_primitive_table).

(** The table as amended: [long] for the five unsigned widths [uint],
    [uint8], [uint16], [uint32] and [uint64] only; [uintptr] has no row. *)
Definition amended_primitive_table : list (reflect.Kind * string) :=
  [(reflect.Leaf reflect.String, "string"); (reflect.Leaf reflect.Bool, "boolean")]
  ++ map (fun k => (reflect.Leaf k, "int"))
       [reflect.Int; reflect.Int8; reflect.Int16; reflect.Int32; reflect.Int64]
  ++ map (fun k => (reflect.Leaf k, "long"))
       [reflect.Uint; reflect.Uint8; reflect.Uint16; reflect.Uint32; reflect.Uint64]
  ++ map (fun k => (reflect.Leaf k, "double")) [reflect.Float32; reflect.Float64].

Definition amended_primitive (k : reflect.Kind) : option string :=
  option_map snd (find (fun row => reflect.Kind_eqb (fst row) k) amended_primitive_table).

(** The collapsing rule (section 3): nothing for an empty list, the bare
    element for a list of one, the list otherwise. *)
Definition spec_collapse (l : list iface) : iface :=
  match l with
  | [] => Nil
  | [x] => x
  | _ :: _ :: _ => List l
  end.

(** The precedence of names (section 3): canonical key, fallback key,
    declared identifier. *)
Definition spec_resolved_name {Tags : Type}
    (Get : Tags -> string -> structtag.Tag + error)
    (fallbackKey : string) (tags : Tags) (identifier : string) : string :=
  match Get tags "avro" with
  | inl tag => structtag.Name tag
  | inr _ =>
      match Get tags fallbackKey with
      | inl tag => structtag.Name tag
      | inr _ => identifier
      end
  end.

(** A field and its node in the record: the tag text parses, the node
    bears the resolved name, and the node is either the node of a
    recursive call on the field's type (under the [items] and [values]
    overrides of the tag) with its name replaced, or the slot of a type
    override. *)
Definition resolved_field {Tags : Type}
    (Parse : string -> Tags + error)
    (Get : Tags -> string -> structtag.Tag + error)
    (fb : string) (f : StructField.t rtype) (slot : TypedSchema) : Prop :=
  exists tags,
    Parse (StructField.Tag f) = inl tags
    /\ let name := spec_resolved_name Get fb tags (StructField.Name f) in
       TS.Name slot = name
       /\ ((exists r,
               inferSchema Parse Get fb (StructField.Type_ f)
                 (snd (fieldTags Get fb tags (StructField.Name f)))
                 (snd (fst (fieldTags Get fb tags (StructField.Name f))))
               = (r, None)
               /\ TS.Name r = type_Name (StructField.Type_ f)
               /\ slot = TS.set_Name r name)
           \/ (exists tys,
                  tys <> [] /\ slot = TS.set_Name (TS.set_types TS.zero tys) name)).

(** The field fails with the error: its tag does not parse, or it has
    no type override and the inference of its type fails, under the
    overrides its tag gives; the error is that of the parser or of the
    inference, under the struct marker. *)
Definition failed_field {Tags : Type}
    (Parse : string -> Tags + error)
    (Get : Tags -> string -> structtag.Tag + error)
    (fb : string) (f : StructField.t rtype) (e : error) : Prop :=
  (exists perr,
      Parse (StructField.Tag f) = inr perr /\ e = wrapError "struct: " perr)
  \/ (exists tags name fieldValues fieldItems partial e',
         Parse (StructField.Tag f) = inl tags
         /\ fieldTags Get fb tags (StructField.Name f)
            = (name, [], fieldValues, fieldItems)
         /\ inferSchema Parse Get fb (StructField.Type_ f) fieldItems fieldValues
            = (partial, Some e')
         /\ e = wrapError "struct: " e').

(** The error of a type is the error of the nested step that failed,
    under the marker of the type's case; for a map whose key kind is not
    [string] it is the map-key error, bare. *)
Definition error_of_failed_step {Tags : Type}
    (Parse : string -> Tags + error)
    (Get : Tags -> string -> structtag.Tag + error)
    (fb : string) (t : rtype) (items values : option (list string))
    (e : error) : Prop :=
  match t with
  | TPtr _ elem =>
      exists partial e',
        inferSchema Parse Get fb elem None None = (partial, Some e')
        /\ e = wrapError "ptr: " e'
  | TStruct _ fields =>
      exists pre f post,
        fields = (pre ++ f :: post)%list
        /\ snd (inferFields Parse Get fb pre) = None
        /\ failed_field Parse Get fb f e
  | TSlice _ elem =>
      items = None
      /\ exists partial e',
          inferSchema Parse Get fb elem None None = (partial, Some e')
          /\ e = wrapError "slice: " e'
  | TMap _ key elem =>
      (type_Kind key <> reflect.Leaf reflect.String /\ e = InvalidMapKey)
      \/ (type_Kind key = reflect.Leaf reflect.String
          /\ values = None
          /\ exists partial e',
              inferSchema Parse Get fb elem None None = (partial, Some e')
              /\ e = wrapError "map: " e')
  | TLeaf _ k =>
      inferType t = ("", Some (UnsupportedKind (reflect.Leaf k)))
      /\ e = wrapError "default: " (UnsupportedKind (reflect.Leaf k))
  end.

(** The marker of the structural case a type falls in (section 4.2). *)
Definition spec_case_marker (t : rtype) : string :=
  match type_Kind t with
  | reflect.Ptr => "ptr: "
  | reflect.Struct => "struct: "
  | reflect.Slice => "slice: "
  | reflect.Map => "map: "
  | reflect.Leaf _ => "default: "
  end.

(** The node of a scalar leaf. *)
Definition leaf_node (name primitive : string) : TypedSchema :=
  mkTypedSchema name (Str primitive) [Str primitive] [] Nil [] Nil [].

(** ** The earlier versions of the inference

    infer.go and infer_test.go also hold the two earlier versions of the
    file: the first looks names up under the key [avro] only and returns
    errors as they are; the second takes the key as an argument. *)

(** The first version (the first part of infer.go). *)
Module V1.

Definition inferType (t : rtype) : string * option error :=
  match type_Kind t with
  | reflect.Leaf reflect.String => ("string", None)
  | reflect.Leaf reflect.Bool => ("boolean", None)
  | reflect.Leaf reflect.Int | reflect.Leaf reflect.Int8
  | reflect.Leaf reflect.Int16 | reflect.Leaf reflect.Int32
  | reflect.Leaf reflect.Int64 => ("int", None)
  | reflect.Leaf reflect.Uint | reflect.Leaf reflect.Uint8
  | reflect.Leaf reflect.Uint16 | reflect.Leaf reflect.Uint32
  | reflect.Leaf reflect.Uint64 => ("long", None)
  | reflect.Leaf reflect.Float32 | reflect.Leaf reflect.Float64 => ("double", None)
  | _ => ("", Some (errorString "unsupported type"))
  end.

Section Inference.

Variable Tags : Type.
Variable Parse : string -> Tags + error.
Variable Get : Tags -> string -> structtag.Tag + error.

(** One iteration of the loop over the fields: the tag is parsed, the
    field's type is inferred, and the slot is named after the [avro] tag
    or the identifier. *)
Definition inferField (rec : rtype -> TypedSchema * option error)
    (field : StructField.t rtype) : TypedSchema * option error :=
  match Parse (StructField.Tag field) with
  | inr err => (TS.zero, Some err)
  | inl tags =>
      let '(slot, err) := rec (StructField.Type_ field) in
      match err with
      | Some err => (slot, Some err)
      | None =>
          match Get tags "avro" with
          | inl tag => (TS.set_Name slot (structtag.Name tag), None)
          | inr _ => (TS.set_Name slot (StructField.Name field), None)
          end
      end
  end.

Fixpoint inferSchema (t : rtype) : TypedSchema * option error :=
  let s := TS.set_Name TS.zero (type_Name t) in
  match t with
  | TPtr _ elem =>
      let '(typ, err) := inferSchema elem in
      match err with
      | Some err => (s, Some err)
      | None => (collapse (TS.set_types s [Schema typ; Str "null"]), None)
      end
  | TStruct _ fields =>
      let s := TS.set_types s [Str "record"] in
      let '(slots, err) :=
        (fix loop (fs : list (StructField.t rtype))
           : list TypedSchema * option error :=
           match fs with
           | [] => ([], None)
           | field :: rest =>
               let '(slot, err) := inferField inferSchema field in
               match err with
               | Some err => (slot :: repeat TS.zero (length rest), Some err)
               | None => let '(slots, err) := loop rest in (slot :: slots, err)
               end
           end) fields in
      match err with
      | Some err => (TS.set_Fields s slots, Some err)
      | None => (collapse (TS.set_Fields s slots), None)
      end
  | TSlice _ elem =>
      let s := TS.set_types s [Str "array"] in
      let '(typ, err) := inferSchema elem in
      match err with
      | Some err => (s, Some err)
      | None => (collapse (TS.set_items s [Schema typ]), None)
      end
  | TMap _ key elem =>
      let s := TS.set_types s [Str "map"] in
      if negb (reflect.Kind_eqb (type_Kind key) (reflect.Leaf reflect.String))
      then (s, Some InvalidMapKey)
      else
        let '(typ, err) := inferSchema elem in
        match err with
        | Some err => (s, Some err)
        | None => (collapse (TS.set_values s [Schema typ]), None)
        end
  | TLeaf _ _ =>
      let '(typ, err) := inferType t in
      match err with
      | Some err => (s, Some err)
      | None => (collapse (TS.set_types s [Str typ]), None)
      end
  end.

Definition inferFields
  : list (StructField.t rtype) -> list TypedSchema * option error :=
  fix loop (fs : list (StructField.t rtype)) : list TypedSchema * option error :=
    match fs with
    | [] => ([], None)
    | field :: rest =>
        let '(slot, err) := inferField inferSchema field in
        match err with
        | Some err => (slot :: repeat TS.zero (length rest), Some err)
        | None => let '(slots, err) := loop rest in (slot :: slots, err)
        end
    end.

Variable encodeString : string -> string.

Definition InferSchema (t : rtype) : string * option error :=
  let '(s, err) := inferSchema t in
  match err with
  | Some err => ("", Some err)
  | None => (json.encode encodeString (json.MarshalSchema s), None)
  end.

End Inference.

Arguments inferField {Tags} Parse Get rec field.
Arguments inferSchema {Tags} Parse Get t.
Arguments inferFields {Tags} Parse Get fs.
Arguments InferSchema {Tags} Parse Get encodeString t.

End V1.

(** The second version (the second part of infer_test.go): the key of the
    name tag is an argument, [avro] when it is empty. *)
Module V2.

Definition inferType (t : rtype) : string * option error :=
  match type_Kind t with
  | reflect.Leaf reflect.String => ("string", None)
  | reflect.Leaf reflect.Bool => ("boolean", None)
  | reflect.Leaf reflect.Int | reflect.Leaf reflect.Int8
  | reflect.Leaf reflect.Int16 | reflect.Leaf reflect.Int32
  | reflect.Leaf reflect.Int64 => ("int", None)
  | reflect.Leaf reflect.Uint | reflect.Leaf reflect.Uint8
  | reflect.Leaf reflect.Uint16 | reflect.Leaf reflect.Uint32
  | reflect.Leaf reflect.Uint64 => ("long", None)
  | reflect.Leaf reflect.Float32 | reflect.Leaf reflect.Float64 => ("double", None)
  | _ => ("", Some (errorString "unsupported type"))
  end.

Section Inference.

Variable Tags : Type.
Variable Parse : string -> Tags + error.
Variable Get : Tags -> string -> structtag.Tag + error.

Definition inferField (rec : rtype -> TypedSchema * option error)
    (tag : string) (field : StructField.t rtype) : TypedSchema * option error :=
  match Parse (StructField.Tag field) with
  | inr err => (TS.zero, Some err)
  | inl tags =>
      let '(slot, err) := rec (StructField.Type_ field) in
      match err with
      | Some err => (slot, Some err)
      | None =>
          match Get tags tag with
          | inl tag => (TS.set_Name slot (structtag.Name tag), None)
          | inr _ => (TS.set_Name slot (StructField.Name field), None)
          end
      end
  end.

Fixpoint inferSchema (tag : string) (t : rtype) : TypedSchema * option error :=
  let s := TS.set_Name TS.zero (type_Name t) in
  match t with
  | TPtr _ elem =>
      let '(typ, err) := inferSchema tag elem in
      match err with
      | Some err => (s, Some err)
      | None => (collapse (TS.set_types s [Schema typ; Str "null"]), None)
      end
  | TStruct _ fields =>
      let s := TS.set_types s [Str "record"] in
      let '(slots, err) :=
        (fix loop (fs : list (StructField.t rtype))
           : list TypedSchema * option error :=
           match fs with
           | [] => ([], None)
           | field :: rest =>
               let '(slot, err) := inferField (inferSchema tag) tag field in
               match err with
               | Some err => (slot :: repeat TS.zero (length rest), Some err)
               | None => let '(slots, err) := loop rest in (slot :: slots, err)
               end
           end) fields in
      match err with
      | Some err => (TS.set_Fields s slots, Some err)
      | None => (collapse (TS.set_Fields s slots), None)
      end
  | TSlice _ elem =>
      let s := TS.set_types s [Str "array"] in
      let '(typ, err) := inferSchema tag elem in
      match err with
      | Some err => (s, Some err)
      | None => (collapse (TS.set_items s [Schema typ]), None)
      end
  | TMap _ key elem =>
      let s := TS.set_types s [Str "map"] in
      if negb (reflect.Kind_eqb (type_Kind key) (reflect.Leaf reflect.String))
      then (s, Some InvalidMapKey)
      else
        let '(typ, err) := inferSchema tag elem in
        match err with
        | Some err => (s, Some err)
        | None => (collapse (TS.set_values s [Schema typ]), None)
        end
  | TLeaf _ _ =>
      let '(typ, err) := inferType t in
      match err with
      | Some err => (s, Some err)
      | None => (collapse (TS.set_types s [Str typ]), None)
      end
  end.

Definition inferFields (tag : string)
  : list (StructField.t rtype) -> list TypedSchema * option error :=
  fix loop (fs : list (StructField.t rtype)) : list TypedSchema * option error :=
    match fs with
    | [] => ([], None)
    | field :: rest =>
        let '(slot, err) := inferField (inferSchema tag) tag field in
        match err with
        | Some err => (slot :: repeat TS.zero (length rest), Some err)
        | None => let '(slots, err) := loop rest in (slot :: slots, err)
        end
    end.

Variable encodeString : string -> string.

Definition InferSchema (tag : string) (t : rtype) : string * option error :=
  let tag := if String.eqb tag "" then "avro" else tag in
  let '(s, err) := inferSchema tag t in
  match err with
  | Some err => ("", Some err)
  | None => (json.encode encodeString (json.MarshalSchema s), None)
  end.

End Inference.

Arguments inferField {Tags} Parse Get rec tag field.
Arguments inferSchema {Tags} Parse Get tag t.
Arguments inferFields {Tags} Parse Get tag fs.
Arguments InferSchema {Tags} Parse Get encodeString tag t.

End V2.

(** ** Predicates on types and on errors *)

(** The option of a tag has none of the three prefixes the inference
    reads. *)
Definition plainOption (opt : string) : bool :=
  negb (strings.HasPrefix opt "type=")
  && negb (strings.HasPrefix opt "items=")
  && negb (strings.HasPrefix opt "values=").

Section Predicates.

Variable Tags : Type.
Variable Parse : string -> Tags + error.
Variable Get : Tags -> string -> structtag.Tag + error.

Definition parses (raw : string) : bool :=
  match Parse raw with
  | inl _ => true
  | inr _ => false
  end.

(** The canonical tag of the field, when it has one, carries plain
    options only. *)
Definition plainField (f : StructField.t rtype) : bool :=
  match Parse (StructField.Tag f) with
  | inl tags =>
      match Get tags "avro" with
      | inl tag => forallb plainOption (structtag.Options tag)
      | inr _ => true
      end
  | inr _ => true
  end.

(** Every field of every struct of the type is plain. *)
Fixpoint plain (t : rtype) : bool :=
  match t with
  | TPtr _ elem => plain elem
  | TStruct _ fields =>
      forallb (fun f => plainField f && plain (StructField.Type_ f)) fields
  | TSlice _ elem => plain elem
  | TMap _ _ elem => plain elem
  | TLeaf _ _ => true
  end.

(** A type below which the walk meets nothing it rejects: the tags of all
    fields parse, the keys of all maps are strings, and the leaves have a
    primitive name. *)
Fixpoint supported (t : rtype) : bool :=
  match t with
  | TPtr _ elem => supported elem
  | TStruct _ fields =>
      forallb
        (fun f => parses (StructField.Tag f) && supported (StructField.Type_ f))
        fields
  | TSlice _ elem => supported elem
  | TMap _ key elem =>
      reflect.Kind_eqb (type_Kind key) (reflect.Leaf reflect.String)
      && supported elem
  | TLeaf _ k =>
      match amended_primitive (reflect.Leaf k) with
      | Some _ => true
      | None => false
      end
  end.

(** The errors of the walk below a type: the error of a pointer, of a
    slice or of a string-keyed map is an error of the type below it,
    under the marker of the pointer, the slice or the map; the error of a
    struct is, under the struct marker, an error of the type of one of
    its fields or the error of the parser on the tag of one of its
    fields; a map whose key kind is not [string] has the map-key error,
    bare; a leaf without a primitive name has the unsupported-kind error
    under the default marker. *)
Inductive walk_error : rtype -> error -> Prop :=
| ptr_error n elem e :
    walk_error elem e -> walk_error (TPtr n elem) (wrapError "ptr: " e)
| slice_error n elem e :
    walk_error elem e -> walk_error (TSlice n elem) (wrapError "slice: " e)
| map_key_error n key elem :
    type_Kind key <> reflect.Leaf reflect.String ->
    walk_error (TMap n key elem) InvalidMapKey
| map_error n key elem e :
    type_Kind key = reflect.Leaf reflect.String ->
    walk_error elem e -> walk_error (TMap n key elem) (wrapError "map: " e)
| tag_error n fields f err :
    In f fields ->
    Parse (StructField.Tag f) = inr err ->
    walk_error (TStruct n fields) (wrapError "struct: " err)
| field_error n fields f e :
    In f fields ->
    walk_error (StructField.Type_ f) e ->
    walk_error (TStruct n fields) (wrapError "struct: " e)
| unsupported_error n k :
    amended_primitive (reflect.Leaf k) = None ->
    walk_error (TLeaf n k)
      (wrapError "default: " (UnsupportedKind (reflect.Leaf k))).

End Predicates.

Arguments parses {Tags} Parse raw.
Arguments plainField {Tags} Parse Get f.
Arguments plain {Tags} Parse Get t.
Arguments supported {Tags} Parse t.
Arguments walk_error {Tags} Parse _ _.

(** A Go result pair whose error is not nil. *)
Definition failed {A : Type} (r : A * option error) : bool :=
  match snd r with
  | Some _ => true
  | None => false
  end.

(** The markers that stand above the innermost error. *)
Fixpoint markers (e : error) : list string :=
  match e with
  | errorString _ => []
  | wrapError p e' => p :: markers e'
  end.

(** The keys of the members of an object, in order. *)
Definition member_keys (v : json.value) : list string :=
  match v with
  | json.Object members => map fst members
  | _ => []
  end.

(** A pointer to a slice of maps from strings to pointers to channels. *)
Definition deep_chan : rtype :=
  PtrTo (TSlice "" (TMap "" string_t (PtrTo chan_t))).

(** A struct whose second field has a tag that does not parse. *)
Definition bad_tag : rtype :=
  TStruct "S" [field "A" "avro:'a'" int_t; field "B" "avro" string_t;
               field "C" "" chan_t].

(** A struct with a map field that has two [values=] options, and one
    whose only tag stands under the key [json] and has a [type=] option. *)
Definition values_twice : rtype :=
  TStruct "S" [field "A" "" int_t;
               field "M" "avro:'m,values=a,values=b|c'" (TMap "" string_t chan_t)].
Definition fallback_options : rtype :=
  TStruct "S" [field "J" "json:'j,type=x,items=y'" (TSlice "" int_t)].

(** ** Properties *)

Lemma Kind_eqb_eq (a b : reflect.Kind) : reflect.Kind_eqb a b = true <-> a = b.
Proof.
  split.
  - destruct a as [| | | |x], b as [| | | |y]; simpl; try congruence; try reflexivity.
    destruct x, y; simpl; congruence.
  - intros <-. destruct a as [| | | |x]; simpl; try reflexivity.
    destruct x; reflexivity.
Qed.

Lemma Kind_eqb_neq (a b : reflect.Kind) : a <> b -> reflect.Kind_eqb a b = false.
Proof.
  intros H. destruct (reflect.Kind_eqb a b) eqn:E; [|reflexivity].
  apply Kind_eqb_eq in E. contradiction.
Qed.

Section Properties.

Variable Tags : Type.
Variable Parse : string -> Tags + error.
Variable Get : Tags -> string -> structtag.Tag + error.
Variable encodeString : string -> string.

(** *** Unfolding of the struct case *)

Lemma inferSchema_TStruct fb n fs items values :
  inferSchema Parse Get fb (TStruct n fs) items values =
  let s := TS.set_types (TS.set_Name TS.zero n) [Str "record"] in
  let '(slots, err) := inferFields Parse Get fb fs in
  match err with
  | Some err => (TS.set_Fields s slots, Some err)
  | None => (collapse (TS.set_Fields s slots), None)
  end.
Proof. reflexivity. Qed.

(** The loop stops with errors of the struct case only. *)
Lemma inferFields_error fb fs slots e :
  inferFields Parse Get fb fs = (slots, Some e) -> exists e', e = wrapError "struct: " e'.
Proof.
  revert slots. induction fs as [|f rest IH]; intros slots; simpl.
  - discriminate.
  - unfold inferField.
    destruct (Parse (StructField.Tag f)) as [tags|perr].
    + destruct (fieldTags Get fb tags (StructField.Name f)) as [[[name tys] fv] fi].
      destruct tys as [|ty tys].
      * destruct (inferSchema Parse Get fb (StructField.Type_ f) fi fv) as [slot [err|]].
        -- intros H. inversion H. eauto.
        -- destruct (inferFields Parse Get fb rest) as [slots' err'].
           intros H. inversion H; subst. eapply IH. reflexivity.
      * destruct (inferFields Parse Get fb rest) as [slots' err'].
        intros H. inversion H; subst. eapply IH. reflexivity.
    + intros H. inversion H. eauto.
Qed.

(** When the loop ends without an error, every slot is what the
    iteration for its field left. *)
Lemma inferFields_ok fb fs slots :
  inferFields Parse Get fb fs = (slots, None) ->
  Forall2 (fun f slot => inferField Parse Get (inferSchema Parse Get fb) fb f = (slot, None)) fs slots.
Proof.
  revert slots. induction fs as [|f rest IH]; intros slots; simpl.
  - intros H. inversion H. constructor.
  - destruct (inferField Parse Get (inferSchema Parse Get fb) fb f) as [slot [err|]] eqn:Ef.
    + discriminate.
    + destruct (inferFields Parse Get fb rest) as [slots' err'].
      intros H. inversion H; subst. constructor; [exact Ef | apply IH; reflexivity].
Qed.

(** A node that inference returns carries the name of its type. *)
Lemma inferSchema_Name fb t items values s err :
  inferSchema Parse Get fb t items values = (s, err) -> TS.Name s = type_Name t.
Proof.
  destruct t as [n e|n fs|n e|n k e|n k].
  - simpl. destruct (inferSchema Parse Get fb e None None) as [typ [x|]];
      intros H; inversion H; reflexivity.
  - rewrite inferSchema_TStruct. cbv zeta.
    destruct (inferFields Parse Get fb fs) as [slots [x|]]; intros H; inversion H; reflexivity.
  - simpl. destruct items as [its|].
    + intros H; inversion H. destruct its as [|a [|b its]]; reflexivity.
    + destruct (inferSchema Parse Get fb e None None) as [typ [x|]];
        intros H; inversion H; reflexivity.
  - simpl.
    destruct (negb (reflect.Kind_eqb (type_Kind k) (reflect.Leaf reflect.String))).
    + intros H; inversion H; reflexivity.
    + destruct values as [vs|].
      * intros H; inversion H. destruct vs as [|a [|b vs]]; reflexivity.
      * destruct (inferSchema Parse Get fb e None None) as [typ [x|]];
          intros H; inversion H; reflexivity.
  - simpl. destruct (inferType (TLeaf n k)) as [typ [x|]];
      intros H; inversion H; reflexivity.
Qed.

(** *** Scalars *)

(** C5 as amended: on every kind of the amended table ([string], [bool],
    the signed widths [int .. int64], the unsigned widths [uint],
    [uint8 .. uint64], the two float widths) [inferType] returns the
    mapped name, and on every other kind, [uintptr] included, it fails
    with the unsupported-kind error; on a type that reaches the default
    case [inferSchema] yields the leaf node of that name or that error
    under the default marker. *)
Theorem C5_primitive_table :
  (forall t,
      inferType t =
      match amended_primitive (type_Kind t) with
      | Some primitive => (primitive, None)
      | None => ("", Some (UnsupportedKind (type_Kind t)))
      end)
  /\ (forall fb n k items values,
         inferSchema Parse Get fb (TLeaf n k) items values =
         match amended_primitive (reflect.Leaf k) with
         | Some primitive => (leaf_node n primitive, None)
         | None =>
             (mkTypedSchema n Nil [] [] Nil [] Nil [],
              Some (wrapError "default: " (UnsupportedKind (reflect.Leaf k))))
         end)
  /\ amended_primitive (reflect.Leaf reflect.Uintptr) = None
  /\ (forall k,
         amended_primitive k = spec_primitive k
         \/ k = reflect.Leaf reflect.Uintptr).
Proof.
  split; [|split; [|split]].
  - intros t. destruct t as [n e|n fs|n e|n k e|n k]; try reflexivity.
    destruct k; reflexivity.
  - intros fb n k items values. destruct k; reflexivity.
  - reflexivity.
  - intros k. destruct k as [| | | |k]; try (left; reflexivity).
    destruct k; try (left; reflexivity). right. reflexivity.
Qed.

(** *** Maps *)

(** C4: a map type whose key kind is not [string] makes [inferSchema]
    return the map-key error, whatever the value type and whatever
    [values] override was passed down, and [InferSchema] returns the
    empty text with that error. *)
Theorem C4_map_key_must_be_string fb n key elem items values :
  type_Kind key <> reflect.Leaf reflect.String ->
  inferSchema Parse Get fb (TMap n key elem) items values
  = (mkTypedSchema n Nil [Str "map"] [] Nil [] Nil [], Some InvalidMapKey)
  /\ InferSchema Parse Get encodeString fb (TMap n key elem)
     = ("", Some (wrapError "infer schema: " InvalidMapKey))
  /\ root_cause (wrapError "infer schema: " InvalidMapKey) = InvalidMapKey.
Proof.
  intros Hkey. apply Kind_eqb_neq in Hkey.
  unfold InferSchema. simpl. rewrite Hkey. simpl. repeat split.
Qed.

(** *** Pointers *)

(** C2 as amended: when inference of [T] succeeds with node [inner], a
    pointer type to [T] yields the node whose type is the union
    [[inner, "null"]], in that order, and whose name is the pointer
    type's own name (empty for the literal [*T]); the name of [T] is
    the name of [inner].  When inference of [T] fails with an error, the
    pointer type fails with that error under the marker [ptr: ]. *)
Theorem C2_pointer_union fb name T items values :
  (forall inner,
      inferSchema Parse Get fb T None None = (inner, None) ->
      let node :=
        mkTypedSchema name (List [Schema inner; Str "null"])
          [Schema inner; Str "null"] [] Nil [] Nil [] in
      inferSchema Parse Get fb (TPtr name T) items values = (node, None)
      /\ TS.Name node = type_Name (TPtr name T)
      /\ TS.Name inner = type_Name T
      /\ json.MarshalSchema node
         = json.Object [("name", json.String name);
                        ("type", json.Array [json.MarshalSchema inner;
                                             json.String "null"])])
  /\ (forall partial e,
         inferSchema Parse Get fb T None None = (partial, Some e) ->
         inferSchema Parse Get fb (TPtr name T) items values
         = (mkTypedSchema name Nil [] [] Nil [] Nil [], Some (wrapError "ptr: " e))).
Proof.
  split.
  - intros inner Hin node. repeat split.
    + simpl. rewrite Hin. reflexivity.
    + eapply inferSchema_Name; eassumption.
  - intros partial e Hin. simpl. rewrite Hin. reflexivity.
Qed.

(** *** Errors *)

Lemma inferFields_step fb f rest :
  inferFields Parse Get fb (f :: rest)
  = let '(slot, err) := inferField Parse Get (inferSchema Parse Get fb) fb f in
    match err with
    | Some err => (slot :: repeat TS.zero (length rest), Some err)
    | None =>
        let '(slots, err) := inferFields Parse Get fb rest in (slot :: slots, err)
    end.
Proof. reflexivity. Qed.

(** When the loop stops with an error, a first field failed after fields
    that did not: its tag did not parse, or the inference of its type,
    under the overrides of its tag, failed; the error is that error under
    the struct marker. *)
Lemma inferFields_first_failure fb fs slots e :
  inferFields Parse Get fb fs = (slots, Some e) ->
  exists pre f post,
    fs = (pre ++ f :: post)%list
    /\ snd (inferFields Parse Get fb pre) = None
    /\ failed_field Parse Get fb f e.
Proof.
  revert slots. induction fs as [|f rest IH]; intros slots.
  - discriminate.
  - rewrite inferFields_step.
    destruct (inferField Parse Get (inferSchema Parse Get fb) fb f)
      as [slot [x|]] eqn:Ef.
    + intros H. inversion H; subst. exists [], f, rest.
      split; [reflexivity|]. split; [reflexivity|].
      unfold inferField in Ef. unfold failed_field.
      destruct (Parse (StructField.Tag f)) as [tags|perr].
      * right. exists tags.
        destruct (fieldTags Get fb tags (StructField.Name f)) as [[[name tys] fv] fi].
        destruct tys as [|ty tys]; [|discriminate].
        destruct (inferSchema Parse Get fb (StructField.Type_ f) fi fv)
          as [partial [y|]] eqn:Er; [|discriminate].
        inversion Ef; subst. do 5 eexists. repeat split. exact Er.
      * left. exists perr. inversion Ef. split; reflexivity.
    + destruct (inferFields Parse Get fb rest) as [slots' [y|]] eqn:Er;
        intros H; inversion H; subst.
      destruct (IH _ eq_refl) as (pre & f' & post & Hfs & Hpre & Hf').
      exists (f :: pre), f', post. split; [rewrite Hfs; reflexivity|].
      split; [|exact Hf'].
      rewrite inferFields_step, Ef.
      destruct (inferFields Parse Get fb pre) as [slotsp errp]. exact Hpre.
Qed.

(** C3 as amended: an error that [inferSchema] returns for a type is the
    error of the nested step that failed (the inference of the pointee,
    of the element, of the value or of the first failing field's type,
    the parser on the first failing field's tag, or [inferType]) under
    the marker of the type's case, once; or it is the map-key error,
    which the map case returns bare for a key whose kind is not
    [string].  [InferSchema] puts what [inferSchema] returns under its
    own prefix. *)
Theorem C3_error_markers fb t :
  (forall items values s e,
      inferSchema Parse Get fb t items values = (s, Some e) ->
      error_of_failed_step Parse Get fb t items values e
      /\ ((exists e', e = wrapError (spec_case_marker t) e')
          \/ (exists n key elem,
                 t = TMap n key elem
                 /\ type_Kind key <> reflect.Leaf reflect.String
                 /\ e = InvalidMapKey)))
  /\ (forall s e,
         inferSchema Parse Get fb t None None = (s, Some e) ->
         InferSchema Parse Get encodeString fb t
         = ("", Some (wrapError "infer schema: " e))).
Proof.
  split.
  - intros items values s e.
    destruct t as [n el|n fs|n el|n k el|n k].
    + simpl. destruct (inferSchema Parse Get fb el None None) as [typ [x|]] eqn:E;
        intros H; inversion H; subst. split.
      * exists typ, x. split; reflexivity.
      * left. eexists. reflexivity.
    + rewrite inferSchema_TStruct. cbv zeta.
      destruct (inferFields Parse Get fb fs) as [slots [x|]] eqn:Ef;
        intros H; inversion H; subst. split.
      * simpl. eapply inferFields_first_failure. exact Ef.
      * left. eapply inferFields_error. eassumption.
    + simpl. destruct items as [its|]; [discriminate|].
      destruct (inferSchema Parse Get fb el None None) as [typ [x|]] eqn:E;
        intros H; inversion H; subst. split.
      * split; [reflexivity|]. exists typ, x. split; reflexivity.
      * left. eexists. reflexivity.
    + simpl.
      destruct (reflect.Kind_eqb (type_Kind k) (reflect.Leaf reflect.String)) eqn:Ek;
        simpl.
      * destruct values as [vs|]; [discriminate|].
        destruct (inferSchema Parse Get fb el None None) as [typ [x|]] eqn:E;
          intros H; inversion H; subst. split.
        -- right. split; [apply Kind_eqb_eq; exact Ek|]. split; [reflexivity|].
           exists typ, x. split; reflexivity.
        -- left. eexists. reflexivity.
      * intros H; inversion H; subst.
        assert (Hk : type_Kind k <> reflect.Leaf reflect.String).
        { intros Heq. apply Kind_eqb_eq in Heq. congruence. }
        split.
        -- left. split; [exact Hk|reflexivity].
        -- right. exists n, k, el. repeat split. exact Hk.
    + destruct k; simpl; intros H; inversion H; subst;
        (split; [split; reflexivity | left; eexists; reflexivity]).
  - intros s e H. unfold InferSchema. rewrite H. reflexivity.
Qed.

(** *** Struct fields *)

(** What the collapse leaves on a node that inference returns. *)
Lemma inferSchema_collapsed fb t items values s :
  inferSchema Parse Get fb t items values = (s, None) ->
  TS.types s <> []
  /\ TS.Type_ s = spec_collapse (TS.types s)
  /\ TS.Items s = spec_collapse (TS.items s)
  /\ TS.Values s = spec_collapse (TS.values s).
Proof.
  destruct t as [n e|n fs|n e|n k e|n k].
  - simpl. destruct (inferSchema Parse Get fb e None None) as [typ [x|]];
      intros H; inversion H; simpl; repeat split; discriminate.
  - rewrite inferSchema_TStruct. cbv zeta.
    destruct (inferFields Parse Get fb fs) as [slots [x|]];
      intros H; inversion H; simpl; repeat split; discriminate.
  - simpl. destruct items as [its|].
    + intros H; inversion H.
      destruct its as [|a [|b its]]; simpl; repeat split; discriminate.
    + destruct (inferSchema Parse Get fb e None None) as [typ [x|]];
        intros H; inversion H; simpl; repeat split; discriminate.
  - simpl.
    destruct (negb (reflect.Kind_eqb (type_Kind k) (reflect.Leaf reflect.String)));
      [discriminate|].
    destruct values as [vs|].
    + intros H; inversion H.
      destruct vs as [|a [|b vs]]; simpl; repeat split; discriminate.
    + destruct (inferSchema Parse Get fb e None None) as [typ [x|]];
        intros H; inversion H; simpl; repeat split; discriminate.
  - simpl. destruct (inferType (TLeaf n k)) as [typ [x|]];
      intros H; inversion H; simpl; repeat split; discriminate.
Qed.

(** The slot of a field whose canonical tag has a [type=] option: the
    tokens are in [types], [Type] is left nil, and no recursive call is
    made (the slot is the same for every [rec] and every field type). *)
Lemma inferField_type_override rec fb f tags tag :
  Parse (StructField.Tag f) = inl tags ->
  Get tags "avro" = inl tag ->
  typeOptions (structtag.Options tag) <> [] ->
  inferField Parse Get rec fb f
  = (mkTypedSchema (structtag.Name tag) Nil (typeOptions (structtag.Options tag))
       [] Nil [] Nil [], None).
Proof.
  intros HP HG Hty. unfold inferField, fieldTags. rewrite HP, HG.
  destruct (typeOptions (structtag.Options tag)); [contradiction|reflexivity].
Qed.

(** One iteration of the loop, when it ends without an error. *)
Lemma inferField_ok fb f slot :
  inferField Parse Get (inferSchema Parse Get fb) fb f = (slot, None) ->
  resolved_field Parse Get fb f slot.
Proof.
  unfold inferField, resolved_field.
  destruct (Parse (StructField.Tag f)) as [tags|perr]; [|discriminate].
  intros H. exists tags. split; [reflexivity|].
  assert (Hn : fst (fst (fst (fieldTags Get fb tags (StructField.Name f))))
               = spec_resolved_name Get fb tags (StructField.Name f)).
  { unfold fieldTags, spec_resolved_name.
    destruct (Get tags "avro"); [reflexivity|].
    destruct (Get tags fb); reflexivity. }
  cbv zeta. rewrite <- Hn.
  destruct (fieldTags Get fb tags (StructField.Name f)) as [[[name tys] fv] fi].
  simpl in *. destruct tys as [|ty tys].
  - destruct (inferSchema Parse Get fb (StructField.Type_ f) fi fv) as [r [x|]] eqn:Er;
      [discriminate|].
    inversion H; subst. split.
    + destruct r; reflexivity.
    + left. exists r. repeat split.
      eapply inferSchema_Name; eassumption.
  - inversion H; subst. split; [reflexivity|].
    right. exists (ty :: tys). split; [discriminate|reflexivity].
Qed.

(** C6: in the node of a struct, the name of every field's node is the
    name of the canonical-key tag when the field has one, else the name
    of the fallback-key tag when it has one, else the declared
    identifier; where the node comes from a recursive call, it is that
    call's node with its name (the name of the field's type) replaced
    by the resolved one. *)
Theorem C6_name_precedence fb n fs items values s :
  inferSchema Parse Get fb (TStruct n fs) items values = (s, None) ->
  Forall2 (resolved_field Parse Get fb) fs (TS.Fields s).
Proof.
  rewrite inferSchema_TStruct. cbv zeta.
  destruct (inferFields Parse Get fb fs) as [slots [x|]] eqn:Ef; [discriminate|].
  intros H; inversion H; subst; clear H. simpl.
  apply inferFields_ok in Ef.
  induction Ef as [|f slot fs' slots' Hf _ IH]; constructor; [|exact IH].
  apply inferField_ok. exact Hf.
Qed.

(** *** Overrides of items and values *)

Lemma lastOption_no_hit prefix opts acc :
  Forall (fun opt => strings.HasPrefix opt prefix = false) opts ->
  fold_left
    (fun acc opt =>
       if strings.HasPrefix opt prefix
       then Some (strings.Split (strings.TrimPrefix opt prefix) bar)
       else acc)
    opts acc = acc.
Proof.
  intros H. revert acc. induction H as [|opt opts Hopt _ IH]; intros acc; simpl.
  - reflexivity.
  - rewrite Hopt. apply IH.
Qed.

Lemma lastOption_last prefix pre opt post :
  strings.HasPrefix opt prefix = true ->
  Forall (fun o => strings.HasPrefix o prefix = false) post ->
  lastOption prefix (pre ++ opt :: post)%list
  = Some (strings.Split (strings.TrimPrefix opt prefix) bar).
Proof.
  intros Hopt Hpost. unfold lastOption.
  rewrite fold_left_app. simpl. rewrite Hopt.
  apply lastOption_no_hit. exact Hpost.
Qed.

Lemma typeOptions_none opts :
  Forall (fun opt => strings.HasPrefix opt "type=" = false) opts ->
  typeOptions opts = [].
Proof.
  intros H. unfold typeOptions.
  induction H as [|opt opts Hopt _ IH]; simpl.
  - reflexivity.
  - rewrite Hopt. exact IH.
Qed.

Lemma Forall2_nth_error {A B : Type} (R : A -> B -> Prop) l l' i a :
  Forall2 R l l' -> nth_error l i = Some a ->
  exists b, nth_error l' i = Some b /\ R a b.
Proof.
  intros H. revert i. induction H as [|x y l l' Hxy _ IH]; intros i.
  - destruct i; discriminate.
  - destruct i as [|i]; simpl.
    + intros Heq. inversion Heq; subst. eauto.
    + apply IH.
Qed.

Lemma inferSchema_TSlice_items fb n elem its values :
  inferSchema Parse Get fb (TSlice n elem) (Some its) values
  = (mkTypedSchema n (Str "array") [Str "array"]
       (map Str its) (spec_collapse (map Str its)) [] Nil [], None).
Proof. simpl. destruct its as [|a [|b its]]; reflexivity. Qed.


(** *** The fallback key *)

Section EmptyFallback.

(** Package structtag has no tag under the empty key: [Parse] rejects
    a pair whose key is empty. *)
Hypothesis no_empty_key :
  forall raw tags, Parse raw = inl tags -> exists e, Get tags "" = inr e.

Lemma fieldTags_empty_fallback raw tags name :
  Parse raw = inl tags ->
  fieldTags Get "" tags name = fieldTags Get "avro" tags name.
Proof.
  intros HP. unfold fieldTags.
  destruct (Get tags "avro") as [tag|e] eqn:EG; [reflexivity|].
  destruct (no_empty_key raw tags HP) as [e' ->]. reflexivity.
Qed.

Lemma inferSchema_empty_fallback t :
  forall items values,
    inferSchema Parse Get "" t items values
    = inferSchema Parse Get "avro" t items values.
Proof.
  induction t as [n e IH|n fs IH|n e IH|n k e IHk IHe|n k] using rtype_fields_ind;
    intros items values.
  - simpl. rewrite IH. reflexivity.
  - rewrite !inferSchema_TStruct.
    assert (Hfs : inferFields Parse Get "" fs = inferFields Parse Get "avro" fs).
    { induction IH as [|f rest Hf _ IHrest].
      - reflexivity.
      - simpl. fold (inferFields Parse Get "" rest).
        fold (inferFields Parse Get "avro" rest).
        rewrite IHrest.
        assert (Hfield :
                 inferField Parse Get (inferSchema Parse Get "") "" f
                 = inferField Parse Get (inferSchema Parse Get "avro") "avro" f).
        { unfold inferField.
          destruct (Parse (StructField.Tag f)) as [tags|perr] eqn:EP; [|reflexivity].
          rewrite (fieldTags_empty_fallback _ _ _ EP).
          destruct (fieldTags Get "avro" tags (StructField.Name f))
            as [[[name tys] fv] fi].
          destruct tys; [|reflexivity].
          rewrite Hf. reflexivity. }
        rewrite Hfield. reflexivity. }
    rewrite Hfs. reflexivity.
  - simpl. rewrite IH. reflexivity.
  - simpl. rewrite IHe. reflexivity.
  - reflexivity.
Qed.

(** C9: [InferSchema] with the empty fallback key returns what it
    returns with the fallback key [avro], text and error alike, for
    every type. *)
Theorem C9_empty_fallback_is_avro t :
  InferSchema Parse Get encodeString "" t
  = InferSchema Parse Get encodeString "avro" t.
Proof.
  unfold InferSchema. rewrite inferSchema_empty_fallback. reflexivity.
Qed.

End EmptyFallback.

(** *** Names in the rendered document *)

Lemma MarshalSchema_name s :
  exists rest,
    json.MarshalSchema s
    = json.Object (("name", json.String (TS.Name s)) :: rest).
Proof. destruct s. simpl. eexists. reflexivity. Qed.

Lemma MarshalSchema_named s : json.named (json.MarshalSchema s) = true.
Proof.
  apply (TypedSchema_nodes_ind
           (fun s => json.named (json.MarshalSchema s) = true)
           (fun v => json.named (json.MarshalIface v) = true)).
  - intros n ty tys its it vs v fs Hty Hit Hv Hfs.
    assert (Hnamed_fs : forallb json.named (map json.MarshalSchema fs) = true).
    { induction Hfs as [|x r Hx _ IH]; simpl in *; [reflexivity|].
      rewrite Hx. exact IH. }
    cbn [json.MarshalSchema].
    cbn [json.named find fst snd String.eqb Ascii.eqb Bool.eqb andb app forallb].
    rewrite Hty. cbn [andb]. rewrite !forallb_app.
    repeat (apply andb_true_intro; split).
    + destruct it; [reflexivity| | |]; cbn [forallb snd];
        rewrite Hit; reflexivity.
    + destruct v; [reflexivity| | |]; cbn [forallb snd];
        rewrite Hv; reflexivity.
    + destruct fs as [|x r]; [reflexivity|]. cbn [forallb snd json.named].
      rewrite Hnamed_fs. reflexivity.
  - reflexivity.
  - reflexivity.
  - intros x Hx. exact Hx.
  - intros l Hl. cbn [json.MarshalIface json.named].
    induction Hl as [|x r Hx _ IH]; simpl in *; [reflexivity|].
    rewrite Hx. exact IH.
Qed.


End Properties.

(** ** The reference parser has no tag under the empty key *)

Lemma parseLoop_keys fuel :
  forall tag acc tags,
    Forall (fun t => structtag.Key t <> "") acc ->
    structtag.parseLoop fuel tag acc = inl tags ->
    Forall (fun t => structtag.Key t <> "") tags.
Proof.
  induction fuel as [|fuel IH]; intros tag acc tags Hacc;
    cbn [structtag.parseLoop].
  - intros H; inversion H; subst. exact Hacc.
  - destruct (structtag.skipSpaces tag) as [|c0 tag0].
    + intros H; inversion H; subst. exact Hacc.
    + destruct (structtag.scanKey (String c0 tag0)) as [key rest].
      destruct key as [|kc key']; [discriminate|].
      destruct rest as [|c1 [|c2 after]]; try discriminate.
      destruct (negb (Ascii.eqb c1 ":")); [discriminate|].
      destruct (negb (Ascii.eqb c2 dquote)); [discriminate|].
      destruct (structtag.scanValue after) as [[value tag']|]; [|discriminate].
      apply IH. apply Forall_app. split; [exact Hacc|].
      constructor; [discriminate|constructor].
Qed.

Lemma Get_empty_key tags :
  Forall (fun t => structtag.Key t <> "") tags ->
  structtag.Get tags "" = inr structtag.errTagNotExist.
Proof.
  induction 1 as [|t tags Ht _ IH]; simpl.
  - reflexivity.
  - destruct (String.eqb (structtag.Key t) "") eqn:E.
    + apply String.eqb_eq in E. contradiction.
    + exact IH.
Qed.

Lemma structtag_no_empty_key raw tags :
  structtag.Parse raw = inl tags -> exists e, structtag.Get tags "" = inr e.
Proof.
  intros H. eexists. apply Get_empty_key.
  eapply parseLoop_keys; [|exact H]. constructor.
Qed.

(** ** The helpers of package strings on the option syntax *)

Example Split_tokens :
  strings.Split "string|null" bar = ["string"; "null"]
  /\ strings.Split "" bar = [""]
  /\ strings.Split "a||b|" bar = ["a"; ""; "b"; ""].
Proof. repeat split. Qed.

Example TrimPrefix_option :
  strings.TrimPrefix "type=x|y" "type=" = "x|y"
  /\ strings.TrimPrefix "types" "type=" = "types"
  /\ strings.TrimPrefix "typ" "type=" = "typ"
  /\ strings.HasPrefix "items=string|null" "items=" = true
  /\ strings.HasPrefix "item" "items=" = false.
Proof. repeat split. Qed.

Example Parse_two_pairs :
  structtag.Parse (q "avro:'b,type=x|y' json:'c,omitempty'")
  = inl [structtag.mkTag "avro" "b" ["type=x|y"];
         structtag.mkTag "json" "c" ["omitempty"]]
  /\ structtag.Parse (q "avro") = inr structtag.errTagSyntax
  /\ structtag.Parse (q ":'b'") = inr structtag.errTagKeySyntax.
Proof. repeat split. Qed.

(** ** The golden test of infer_test.go *)

Example TestInferSchema_simple_nested_struct :
  InferSchema_ref "" A_t
  = (q "{'name':'A','type':'record','fields':[{'name':'b','type':'string'},{'name':'C','type':'int'},{'name':'E','type':'record','fields':[{'name':'F','type':'string'}]}]}",
     None).
Proof. vm_compute. reflexivity. Qed.

(** ** The type override and the rendered type *)

(** On a node that inference returns, the rendered document follows the
    collapsing rule: [type] is the collapsed [types], and [items] and
    [values] are the collapsed lists, absent when the list is empty. *)
Lemma inferSchema_rendering {Tags : Type} (Parse : string -> Tags + error)
    (Get : Tags -> string -> structtag.Tag + error) fb t items values s :
  inferSchema Parse Get fb t items values = (s, None) ->
  json.member "type" (json.MarshalSchema s)
  = Some (json.MarshalIface (spec_collapse (TS.types s)))
  /\ json.member "items" (json.MarshalSchema s)
     = match TS.items s with
       | [] => None
       | l => Some (json.MarshalIface (spec_collapse l))
       end
  /\ json.member "values" (json.MarshalSchema s)
     = match TS.values s with
       | [] => None
       | l => Some (json.MarshalIface (spec_collapse l))
       end.
Proof.
  destruct t as [n e|n fs|n e|n k e|n k].
  - simpl. destruct (inferSchema Parse Get fb e None None) as [typ [x|]];
      intros H; inversion H; subst. repeat split.
  - rewrite inferSchema_TStruct. cbv zeta.
    destruct (inferFields Parse Get fb fs) as [slots [x|]];
      intros H; inversion H; subst.
    destruct slots; repeat split.
  - simpl. destruct items as [its|].
    + intros H; inversion H; subst.
      destruct its as [|a [|b its]]; repeat split.
    + destruct (inferSchema Parse Get fb e None None) as [typ [x|]];
        intros H; inversion H; subst. repeat split.
  - simpl.
    destruct (negb (reflect.Kind_eqb (type_Kind k) (reflect.Leaf reflect.String)));
      [discriminate|].
    destruct values as [vs|].
    + intros H; inversion H; subst.
      destruct vs as [|a [|b vs]]; repeat split.
    + destruct (inferSchema Parse Get fb e None None) as [typ [x|]];
        intros H; inversion H; subst. repeat split.
  - simpl. destruct (inferType (TLeaf n k)) as [typ [x|]];
      intros H; inversion H; subst. repeat split.
Qed.

(** C1, at the struct [S] with the field [B E] tagged
    [avro:"b,type=x|y"]: the field's slot holds the tokens [x] and [y] in
    [types] and nothing of the record [E], but its [Type] is nil and the
    document renders it as [null]. *)
Theorem C1_type_override_renders_null :
  inferSchema_ref "" override_xy None None
  = (mkTypedSchema "S" (Str "record") [Str "record"] [] Nil [] Nil
       [mkTypedSchema "b" Nil [Str "x"; Str "y"] [] Nil [] Nil []],
     None)
  /\ json.member "type"
       (json.MarshalSchema (mkTypedSchema "b" Nil [Str "x"; Str "y"] [] Nil [] Nil []))
     = Some json.Null
  /\ InferSchema_ref "" override_xy
     = (q "{'name':'S','type':'record','fields':[{'name':'b','type':null}]}", None).
Proof. repeat split. Qed.

(** C8, at the struct [S] with the field [B string] tagged
    [avro:"b,type=x"]: the field's [types] has length one, and the
    document renders the type as [null], not as the bare ["x"]. *)
Theorem C8_single_override_renders_null :
  inferSchema_ref "" override_x None None
  = (mkTypedSchema "S" (Str "record") [Str "record"] [] Nil [] Nil
       [mkTypedSchema "b" Nil [Str "x"] [] Nil [] Nil []],
     None)
  /\ json.member "type"
       (json.MarshalSchema (mkTypedSchema "b" Nil [Str "x"] [] Nil [] Nil []))
     <> Some (json.String "x")
  /\ InferSchema_ref "" override_x
     = (q "{'name':'S','type':'record','fields':[{'name':'b','type':null}]}", None).
Proof. repeat split. discriminate. Qed.

(** ** The claims at concrete types *)

(** C5 as stated fails at [uintptr]: it is an unsigned integer kind, for
    which the table of the claim has [long], and [inferType],
    [inferSchema] and [InferSchema] fail on it with the unsupported-kind
    error. *)
Lemma C5_uintptr_counterexample :
  In reflect.Uintptr unsigned_integer_kinds
  /\ spec_primitive (reflect.Leaf reflect.Uintptr) = Some "long"
  /\ inferType (TLeaf "uintptr" reflect.Uintptr)
     = ("", Some (UnsupportedKind (reflect.Leaf reflect.Uintptr)))
  /\ fst (inferType (TLeaf "uintptr" reflect.Uintptr)) <> "long"
  /\ inferSchema_ref "" (TLeaf "uintptr" reflect.Uintptr) None None
     = (mkTypedSchema "uintptr" Nil [] [] Nil [] Nil [],
        Some (wrapError "default: " (UnsupportedKind (reflect.Leaf reflect.Uintptr))))
  /\ Error (UnsupportedKind (reflect.Leaf reflect.Uintptr))
     = "unsupported type: uintptr".
Proof.
  split; [simpl; tauto|]. repeat split. discriminate.
Qed.

(** C2 as stated fails at [*string]: the node of the pointer type has an
    empty name, not the name [string] of the pointee. *)
Lemma C2_pointer_name_counterexample :
  exists s,
    inferSchema_ref "" (PtrTo string_t) None None = (s, None)
    /\ TS.Type_ s = List [Schema (leaf_node "string" "string"); Str "null"]
    /\ TS.Name s = ""
    /\ TS.Name s <> type_Name string_t.
Proof. eexists. repeat split. discriminate. Qed.

Lemma C2_pointer_union_witness :
  inferSchema_ref "" string_t None None = (leaf_node "string" "string", None)
  /\ inferSchema_ref "" (PtrTo string_t) (Some ["a"]) None
     = (mkTypedSchema "" (List [Schema (leaf_node "string" "string"); Str "null"])
          [Schema (leaf_node "string" "string"); Str "null"] [] Nil [] Nil [],
        None)
  /\ inferSchema_ref "" chan_t None None
     = (mkTypedSchema "" Nil [] [] Nil [] Nil [],
        Some (wrapError "default: " (UnsupportedKind (reflect.Leaf reflect.Chan))))
  /\ inferSchema_ref "" (PtrTo chan_t) None None
     = (mkTypedSchema "" Nil [] [] Nil [] Nil [],
        Some (wrapError "ptr: "
                (wrapError "default: " (UnsupportedKind (reflect.Leaf reflect.Chan))))).
Proof.
  split; [reflexivity|]. split; [|split; [reflexivity|]].
  - apply (proj1 (C2_pointer_union structtag.Tags structtag.Parse structtag.Get
                    "" "" string_t (Some ["a"]) None)
             (leaf_node "string" "string")).
    reflexivity.
  - apply (proj2 (C2_pointer_union structtag.Tags structtag.Parse structtag.Get
                    "" "" chan_t None None)
             (mkTypedSchema "" Nil [] [] Nil [] Nil [])
             (wrapError "default: " (UnsupportedKind (reflect.Leaf reflect.Chan)))).
    reflexivity.
Defined.

(** C3 as stated fails at [map[int]string]: the error is the bare map-key
    error, with no marker of the map case; [InferSchema] adds its own
    prefix only. *)
Lemma C3_map_key_counterexample :
  snd (inferSchema_ref "" map_int_string None None) = Some InvalidMapKey
  /\ (forall e', InvalidMapKey <> wrapError "map: " e')
  /\ InferSchema_ref "" map_int_string
     = ("", Some (wrapError "infer schema: " InvalidMapKey))
  /\ Error (wrapError "infer schema: " InvalidMapKey)
     = "infer schema: map key must be string".
Proof. repeat split. discriminate. Qed.

Lemma C3_error_markers_witness :
  inferSchema_ref "" (TSlice "" chan_t) None None
  = (mkTypedSchema "" Nil [Str "array"] [] Nil [] Nil [],
     Some (wrapError "slice: "
             (wrapError "default: " (UnsupportedKind (reflect.Leaf reflect.Chan)))))
  /\ error_of_failed_step structtag.Parse structtag.Get "" (TSlice "" chan_t)
       None None
       (wrapError "slice: "
          (wrapError "default: " (UnsupportedKind (reflect.Leaf reflect.Chan))))
  /\ InferSchema_ref "" (TSlice "" chan_t)
     = ("", Some (wrapError "infer schema: "
                    (wrapError "slice: "
                       (wrapError "default: "
                          (UnsupportedKind (reflect.Leaf reflect.Chan)))))).
Proof.
  split; [reflexivity|].
  destruct (C3_error_markers structtag.Tags structtag.Parse structtag.Get quote
              "" (TSlice "" chan_t)) as [Hstep Htop].
  split.
  - apply (Hstep None None (mkTypedSchema "" Nil [Str "array"] [] Nil [] Nil [])).
    reflexivity.
  - apply (Htop (mkTypedSchema "" Nil [Str "array"] [] Nil [] Nil [])).
    reflexivity.
Defined.

Lemma C4_map_key_must_be_string_witness :
  type_Kind int_t <> reflect.Leaf reflect.String
  /\ inferSchema_ref "" (TMap "" int_t chan_t) None (Some ["string"; "null"])
     = (mkTypedSchema "" Nil [Str "map"] [] Nil [] Nil [], Some InvalidMapKey)
  /\ InferSchema_ref "" (TMap "" int_t chan_t)
     = ("", Some (wrapError "infer schema: " InvalidMapKey))
  /\ root_cause (wrapError "infer schema: " InvalidMapKey) = InvalidMapKey.
Proof.
  split; [discriminate|].
  apply (C4_map_key_must_be_string structtag.Tags structtag.Parse structtag.Get quote
           "" "" int_t chan_t None (Some ["string"; "null"])).
  discriminate.
Defined.

Lemma C6_name_precedence_witness :
  inferSchema_ref "" A_t None None = (A_node, None)
  /\ Forall2 (resolved_field structtag.Parse structtag.Get "")
       [field "B" "avro:'b'" string_t; field "C" "" int_t; field "E" "" E_t]
       (TS.Fields A_node).
Proof.
  split; [reflexivity|].
  apply (C6_name_precedence structtag.Tags structtag.Parse structtag.Get
           "" "A" _ None None A_node).
  reflexivity.
Defined.


Lemma C9_empty_fallback_is_avro_witness :
  (forall raw tags,
      structtag.Parse raw = inl tags -> exists e, structtag.Get tags "" = inr e)
  /\ InferSchema_ref "" A_t = InferSchema_ref "avro" A_t.
Proof.
  split; [exact structtag_no_empty_key|].
  apply (C9_empty_fallback_is_avro structtag.Tags structtag.Parse structtag.Get quote
           structtag_no_empty_key A_t).
Defined.


(** ** Further properties of the inference *)

Section Coverage.

Variable Tags : Type.
Variable Parse : string -> Tags + error.
Variable Get : Tags -> string -> structtag.Tag + error.
Variable encodeString : string -> string.

Lemma inferFields_cons fb f rest :
  inferFields Parse Get fb (f :: rest)
  = let '(slot, err) := inferField Parse Get (inferSchema Parse Get fb) fb f in
    match err with
    | Some err => (slot :: repeat TS.zero (length rest), Some err)
    | None =>
        let '(slots, err) := inferFields Parse Get fb rest in (slot :: slots, err)
    end.
Proof. reflexivity. Qed.

Lemma inferFields_length fb fs :
  length (fst (inferFields Parse Get fb fs)) = length fs.
Proof.
  induction fs as [|f rest IH]; [reflexivity|].
  rewrite inferFields_cons.
  destruct (inferField Parse Get (inferSchema Parse Get fb) fb f) as [slot [e|]].
  - simpl. rewrite repeat_length. reflexivity.
  - destruct (inferFields Parse Get fb rest) as [slots err]. simpl in *.
    rewrite IH. reflexivity.
Qed.

(** The node of a successful call: it bears the name of the type, its
    [Type], [Items] and [Values] are the collapsed lists, [types] is not
    empty, and the children that are populated are those of the type's
    kind: items for a slice only, values for a map only, fields for a
    struct only, under the types [array], [map] and [record]. *)
Theorem returned_node_shape fb t items values s :
  inferSchema Parse Get fb t items values = (s, None) ->
  TS.Name s = type_Name t
  /\ TS.types s <> []
  /\ TS.Type_ s = spec_collapse (TS.types s)
  /\ TS.Items s = spec_collapse (TS.items s)
  /\ TS.Values s = spec_collapse (TS.values s)
  /\ (TS.items s <> [] -> type_Kind t = reflect.Slice)
  /\ (TS.values s <> [] -> type_Kind t = reflect.Map)
  /\ (TS.Fields s <> [] -> type_Kind t = reflect.Struct)
  /\ (type_Kind t = reflect.Slice -> TS.Type_ s = Str "array")
  /\ (type_Kind t = reflect.Map -> TS.Type_ s = Str "map")
  /\ (type_Kind t = reflect.Struct -> TS.Type_ s = Str "record").
Proof.
  intros H.
  split; [eapply inferSchema_Name; exact H|].
  destruct (inferSchema_collapsed _ _ _ _ _ _ _ _ H) as (Hty & HT & HI & HV).
  repeat (split; [assumption|]).
  destruct t as [n e|n fs|n e|n k e|n k].
  - simpl in H. destruct (inferSchema Parse Get fb e None None) as [typ [x|]];
      inversion H; subst; simpl; repeat split; intros; congruence.
  - rewrite inferSchema_TStruct in H. cbv zeta in H.
    destruct (inferFields Parse Get fb fs) as [slots [x|]];
      inversion H; subst; simpl; repeat split; intros; congruence.
  - simpl in H. destruct items as [its|].
    + inversion H; subst.
      destruct its as [|a [|b its]]; simpl; repeat split; intros; congruence.
    + destruct (inferSchema Parse Get fb e None None) as [typ [x|]];
        inversion H; subst; simpl; repeat split; intros; congruence.
  - simpl in H.
    destruct (negb (reflect.Kind_eqb (type_Kind k) (reflect.Leaf reflect.String)));
      [discriminate|].
    destruct values as [vs|].
    + inversion H; subst.
      destruct vs as [|a [|b vs]]; simpl; repeat split; intros; congruence.
    + destruct (inferSchema Parse Get fb e None None) as [typ [x|]];
        inversion H; subst; simpl; repeat split; intros; congruence.
  - simpl in H. destruct (inferType (TLeaf n k)) as [typ [x|]];
      inversion H; subst; simpl; repeat split; intros; congruence.
Qed.

(** The node of a struct has one slot per declared field, whether the
    call succeeds or stops at an error; after a success the document has
    a member [fields] exactly when the struct has a field. *)
Theorem struct_fields_count fb n fs items values s err :
  inferSchema Parse Get fb (TStruct n fs) items values = (s, err) ->
  length (TS.Fields s) = length fs
  /\ (err = None ->
      (json.member "fields" (json.MarshalSchema s) = None <-> fs = [])).
Proof.
  rewrite inferSchema_TStruct. cbv zeta.
  pose proof (inferFields_length fb fs) as Hlen.
  destruct (inferFields Parse Get fb fs) as [slots [x|]]; simpl in Hlen;
    intros H; inversion H; subst; simpl; split; try exact Hlen.
  - discriminate.
  - intros _. destruct slots as [|slot slots]; destruct fs as [|f fs];
      try discriminate; simpl; split; intros; congruence.
Qed.

(** An [items] override only reaches a slice and a [values] override only
    a map: on a type of another kind the call returns what it returns
    without the override, so an override on a field that is a pointer to
    a slice, a struct or a scalar has no effect. *)
Theorem overrides_consumed_by_their_kind fb t items values :
  (type_Kind t <> reflect.Slice ->
   inferSchema Parse Get fb t items values = inferSchema Parse Get fb t None values)
  /\ (type_Kind t <> reflect.Map ->
      inferSchema Parse Get fb t items values = inferSchema Parse Get fb t items None).
Proof.
  split; intros Hk; destruct t as [n e|n fs|n e|n k e|n k];
    try reflexivity; simpl in Hk; congruence.
Qed.

Lemma inferFields_error_app fb l slots e post :
  inferFields Parse Get fb l = (slots, Some e) ->
  inferFields Parse Get fb (l ++ post)
  = ((slots ++ repeat TS.zero (length post))%list, Some e).
Proof.
  revert slots. induction l as [|f rest IH]; intros slots.
  - discriminate.
  - simpl app. rewrite !inferFields_cons.
    destruct (inferField Parse Get (inferSchema Parse Get fb) fb f) as [slot [x|]].
    + intros H. inversion H; subst. simpl.
      rewrite length_app, repeat_app. reflexivity.
    + destruct (inferFields Parse Get fb rest) as [slots' [y|]] eqn:Er;
        intros H; inversion H; subst.
      rewrite (IH _ eq_refl). reflexivity.
Qed.

(** The first failing field decides the error of a struct: once the
    fields [l] make the inference fail with [e], the struct with any
    further fields after them fails with the same [e], whatever those
    fields are. *)
Theorem struct_first_error_wins fb n l items values s e :
  inferSchema Parse Get fb (TStruct n l) items values = (s, Some e) ->
  forall post n' items' values',
    snd (inferSchema Parse Get fb (TStruct n' (l ++ post)) items' values') = Some e
    /\ skipn (length l)
         (TS.Fields (fst (inferSchema Parse Get fb (TStruct n' (l ++ post)) items' values')))
       = repeat TS.zero (length post).
Proof.
  rewrite inferSchema_TStruct. cbv zeta.
  destruct (inferFields Parse Get fb l) as [slots [x|]] eqn:El;
    intros H; inversion H; subst.
  intros post n' items' values'.
  rewrite inferSchema_TStruct. cbv zeta.
  rewrite (inferFields_error_app _ _ _ _ post El). simpl. split; [reflexivity|].
  pose proof (inferFields_length fb l) as Hlen. rewrite El in Hlen. simpl in Hlen.
  rewrite <- Hlen. rewrite skipn_app, skipn_all, Nat.sub_diag. reflexivity.
Qed.

Lemma inferFields_walk_error fb fs :
  Forall
    (fun f => forall items values s e,
         inferSchema Parse Get fb (StructField.Type_ f) items values = (s, Some e) ->
         walk_error Parse (StructField.Type_ f) e)
    fs ->
  forall slots e,
    inferFields Parse Get fb fs = (slots, Some e) ->
    exists f,
      In f fs
      /\ ((exists err, Parse (StructField.Tag f) = inr err
                       /\ e = wrapError "struct: " err)
          \/ (exists e', walk_error Parse (StructField.Type_ f) e'
                         /\ e = wrapError "struct: " e')).
Proof.
  induction 1 as [|f rest Hf _ IH]; intros slots e.
  - discriminate.
  - rewrite inferFields_cons. unfold inferField.
    destruct (Parse (StructField.Tag f)) as [tags|perr] eqn:EP.
    + destruct (fieldTags Get fb tags (StructField.Name f)) as [[[name tys] fv] fi].
      destruct tys as [|ty tys].
      * destruct (inferSchema Parse Get fb (StructField.Type_ f) fi fv)
          as [slot [x|]] eqn:Er.
        -- intros H. inversion H; subst. exists f. split; [left; reflexivity|].
           right. exists x. split; [eapply Hf; exact Er|reflexivity].
        -- destruct (inferFields Parse Get fb rest) as [slots' [y|]];
             intros H; inversion H; subst.
           destruct (IH _ _ eq_refl) as (f' & Hin & Hf').
           exists f'. split; [right; exact Hin|exact Hf'].
      * destruct (inferFields Parse Get fb rest) as [slots' [y|]];
          intros H; inversion H; subst.
        destruct (IH _ _ eq_refl) as (f' & Hin & Hf').
        exists f'. split; [right; exact Hin|exact Hf'].
    + intros H. inversion H; subst. exists f. split; [left; reflexivity|].
      left. exists perr. split; [exact EP|reflexivity].
Qed.

Lemma inferSchema_walk_error fb t :
  forall items values s e,
    inferSchema Parse Get fb t items values = (s, Some e) ->
    walk_error Parse t e.
Proof.
  induction t as [n el IH|n fs IH|n el IH|n k el IHk IHe|n k] using rtype_fields_ind;
    intros items values s e.
  - simpl. destruct (inferSchema Parse Get fb el None None) as [typ [x|]] eqn:E;
      intros H; inversion H; subst.
    apply ptr_error. eapply IH. exact E.
  - rewrite inferSchema_TStruct. cbv zeta.
    destruct (inferFields Parse Get fb fs) as [slots [x|]] eqn:E;
      intros H; inversion H; subst.
    destruct (inferFields_walk_error fb fs IH _ _ E)
      as (f & Hin & [(err & HP & ->)|(e' & He' & ->)]).
    + eapply tag_error; eassumption.
    + eapply field_error; eassumption.
  - simpl. destruct items as [its|]; [discriminate|].
    destruct (inferSchema Parse Get fb el None None) as [typ [x|]] eqn:E;
      intros H; inversion H; subst.
    apply slice_error. eapply IH. exact E.
  - simpl.
    destruct (reflect.Kind_eqb (type_Kind k) (reflect.Leaf reflect.String)) eqn:Ek;
      simpl.
    + destruct values as [vs|]; [discriminate|].
      destruct (inferSchema Parse Get fb el None None) as [typ [x|]] eqn:E;
        intros H; inversion H; subst.
      apply map_error; [apply Kind_eqb_eq; exact Ek|]. eapply IHe. exact E.
    + intros H; inversion H; subst. apply map_key_error.
      intros Heq. apply Kind_eqb_eq in Heq. congruence.
  - intros H.
    destruct k; simpl in H; inversion H; subst;
      apply unsupported_error; reflexivity.
Qed.

(** *** Which types are inferred *)

Lemma supported_infers t :
  supported Parse t = true ->
  forall fb items values, snd (inferSchema Parse Get fb t items values) = None.
Proof.
  induction t as [n el IH|n fs IH|n el IH|n k el IHk IHe|n k] using rtype_fields_ind;
    intros Hs fb items values.
  - simpl in *. specialize (IH Hs fb None None).
    destruct (inferSchema Parse Get fb el None None) as [typ [x|]];
      [discriminate|reflexivity].
  - rewrite inferSchema_TStruct. cbv zeta.
    assert (Hfs : snd (inferFields Parse Get fb fs) = None).
    { simpl in Hs. induction IH as [|f rest Hf _ IHrest]; [reflexivity|].
      simpl in Hs. apply andb_prop in Hs. destruct Hs as [Hf' Hrest].
      apply andb_prop in Hf'. destruct Hf' as [Hparse Hsup].
      rewrite inferFields_cons. unfold inferField, parses in *.
      destruct (Parse (StructField.Tag f)) as [tags|perr]; [|discriminate].
      destruct (fieldTags Get fb tags (StructField.Name f)) as [[[name tys] fv] fi].
      specialize (IHrest Hrest).
      destruct tys as [|ty tys].
      - specialize (Hf Hsup fb fi fv).
        destruct (inferSchema Parse Get fb (StructField.Type_ f) fi fv) as [slot [x|]];
          [discriminate|].
        destruct (inferFields Parse Get fb rest) as [slots err]. exact IHrest.
      - destruct (inferFields Parse Get fb rest) as [slots err]. exact IHrest. }
    destruct (inferFields Parse Get fb fs) as [slots [x|]];
      [discriminate|reflexivity].
  - simpl in *. destruct items as [its|]; [reflexivity|].
    specialize (IH Hs fb None None).
    destruct (inferSchema Parse Get fb el None None) as [typ [x|]];
      [discriminate|reflexivity].
  - simpl in *. apply andb_prop in Hs. destruct Hs as [Hkey Hel].
    rewrite Hkey. simpl. destruct values as [vs|]; [reflexivity|].
    specialize (IHe Hel fb None None).
    destruct (inferSchema Parse Get fb el None None) as [typ [x|]];
      [discriminate|reflexivity].
  - destruct k; simpl in Hs; try discriminate; reflexivity.
Qed.

(** A type below which all tags parse, all map keys are strings and all
    leaves have a primitive name is inferred without error, under every
    fallback key and every override, and [InferSchema] returns its text
    without error. *)
Theorem supported_types_are_inferred t :
  supported Parse t = true ->
  forall fb items values,
    snd (inferSchema Parse Get fb t items values) = None
    /\ snd (InferSchema Parse Get encodeString fb t) = None.
Proof.
  intros Hs fb items values. split; [apply supported_infers; exact Hs|].
  unfold InferSchema. pose proof (supported_infers t Hs fb None None) as H.
  destruct (inferSchema Parse Get fb t None None) as [s [x|]];
    [discriminate|reflexivity].
Qed.

Lemma plainOption_no_hits opts :
  forallb plainOption opts = true ->
  Forall (fun opt => strings.HasPrefix opt "type=" = false) opts
  /\ Forall (fun opt => strings.HasPrefix opt "items=" = false) opts
  /\ Forall (fun opt => strings.HasPrefix opt "values=" = false) opts.
Proof.
  induction opts as [|opt opts IH]; simpl.
  - intros _. repeat split; constructor.
  - intros H. apply andb_prop in H. destruct H as [Hopt Hrest].
    destruct (IH Hrest) as (H1 & H2 & H3).
    unfold plainOption in Hopt.
    apply andb_prop in Hopt. destruct Hopt as [Hopt Hv].
    apply andb_prop in Hopt. destruct Hopt as [Ht Hi].
    apply negb_true_iff in Ht, Hi, Hv.
    repeat split; constructor; assumption.
Qed.

(** Under a plain field the loop body reads a name from the tags and
    nothing else. *)
Lemma plainField_fieldTags fb f tags :
  plainField Parse Get f = true ->
  Parse (StructField.Tag f) = inl tags ->
  fieldTags Get fb tags (StructField.Name f)
  = (spec_resolved_name Get fb tags (StructField.Name f), [], None, None).
Proof.
  unfold plainField, fieldTags, spec_resolved_name. intros Hp HP. rewrite HP in Hp.
  destruct (Get tags "avro") as [tag|e].
  - destruct (plainOption_no_hits _ Hp) as (H1 & H2 & H3).
    rewrite (typeOptions_none _ H1).
    unfold lastOption. rewrite !lastOption_no_hit by assumption. reflexivity.
  - destruct (Get tags fb); reflexivity.
Qed.

Lemma plain_inferred_supported fb t :
  plain Parse Get t = true ->
  snd (inferSchema Parse Get fb t None None) = None ->
  supported Parse t = true.
Proof.
  induction t as [n el IH|n fs IH|n el IH|n k el IHk IHe|n k] using rtype_fields_ind;
    intros Hp.
  - simpl in *. intros H. apply IH; [exact Hp|].
    destruct (inferSchema Parse Get fb el None None) as [typ [x|]];
      [discriminate|reflexivity].
  - rewrite inferSchema_TStruct. cbv zeta. intros H.
    assert (Hfs : snd (inferFields Parse Get fb fs) = None).
    { destruct (inferFields Parse Get fb fs) as [slots [x|]];
        [discriminate|reflexivity]. }
    clear H. simpl in *.
    induction IH as [|f rest Hf _ IHrest]; [reflexivity|].
    simpl in Hp. apply andb_prop in Hp. destruct Hp as [Hf' Hrest].
    apply andb_prop in Hf'. destruct Hf' as [Hplain Hplain_ty].
    rewrite inferFields_cons in Hfs. unfold inferField in Hfs.
    simpl. unfold parses.
    destruct (Parse (StructField.Tag f)) as [tags|perr] eqn:EP; [|discriminate].
    rewrite (plainField_fieldTags fb f tags Hplain EP) in Hfs.
    destruct (inferSchema Parse Get fb (StructField.Type_ f) None None)
      as [slot [x|]] eqn:Er; [discriminate|].
    rewrite (Hf Hplain_ty) by (try rewrite Er; reflexivity). simpl.
    apply IHrest; [exact Hrest|].
    destruct (inferFields Parse Get fb rest) as [slots err]. exact Hfs.
  - simpl in *. intros H. apply IH; [exact Hp|].
    destruct (inferSchema Parse Get fb el None None) as [typ [x|]];
      [discriminate|reflexivity].
  - simpl in *.
    destruct (reflect.Kind_eqb (type_Kind k) (reflect.Leaf reflect.String));
      [|discriminate].
    simpl. intros H. apply IHe; [exact Hp|].
    destruct (inferSchema Parse Get fb el None None) as [typ [x|]];
      [discriminate|reflexivity].
  - destruct k; simpl; intros H; try discriminate; reflexivity.
Qed.

(** For a type whose canonical tags carry no [type=], [items=] or
    [values=] option, the inference succeeds exactly when the type is
    supported: all tags parse, all map keys are strings, all leaves have
    a primitive name. *)
Theorem plain_types_inferred_iff_supported fb t :
  plain Parse Get t = true ->
  (snd (inferSchema Parse Get fb t None None) = None <-> supported Parse t = true).
Proof.
  intros Hp. split.
  - apply plain_inferred_supported. exact Hp.
  - intros Hs. apply supported_infers. exact Hs.
Qed.

(** *** The results of InferSchema *)

(** Every error of [inferSchema] on a type is an error of the walk below
    that type: its markers are those of the pointers, structs, slices and
    string-keyed maps on one path in the type, from the type itself down,
    in that order, and the path ends at a map whose key kind is not
    [string] (the bare map-key error), at a leaf without a primitive name
    (the unsupported kind under the default marker) or at a struct with a
    field whose tag does not parse (the parser's error under the struct
    marker).  [InferSchema]
    returns a text that is not empty and no error, or the empty text and
    such an error under the prefix [infer schema: ]. *)
Theorem InferSchema_text_or_error fb t :
  (forall items values s e,
      inferSchema Parse Get fb t items values = (s, Some e) ->
      walk_error Parse t e)
  /\ ((exists s,
          inferSchema Parse Get fb t None None = (s, None)
          /\ InferSchema Parse Get encodeString fb t
             = (json.encode encodeString (json.MarshalSchema s), None)
          /\ fst (InferSchema Parse Get encodeString fb t) <> "")
      \/ (exists partial e,
             inferSchema Parse Get fb t None None = (partial, Some e)
             /\ walk_error Parse t e
             /\ InferSchema Parse Get encodeString fb t
                = ("", Some (wrapError "infer schema: " e)))).
Proof.
  split; [apply inferSchema_walk_error|].
  unfold InferSchema.
  destruct (inferSchema Parse Get fb t None None) as [s [e|]] eqn:E.
  - right. exists s, e. split; [reflexivity|]. split; [|reflexivity].
    eapply inferSchema_walk_error. exact E.
  - left. exists s. repeat split.
    destruct s. simpl. discriminate.
Qed.

(** *** Options of the tags *)

Lemma Split_nonempty s sep : strings.Split s sep <> [].
Proof.
  destruct s as [|c rest]; simpl; [discriminate|].
  destruct (Ascii.eqb c sep); [discriminate|].
  destruct (strings.Split rest sep); discriminate.
Qed.

Lemma typeOptions_hit opts opt :
  In opt opts -> strings.HasPrefix opt "type=" = true -> typeOptions opts <> [].
Proof.
  intros Hin Hp Hnil. unfold typeOptions in Hnil.
  destruct (strings.Split (strings.TrimPrefix opt "type=") bar) as [|tok toks] eqn:Es.
  - exact (Split_nonempty _ _ Es).
  - assert (Hin' : In (Str tok)
                     (flat_map
                        (fun opt =>
                           if strings.HasPrefix opt "type="
                           then map Str (strings.Split (strings.TrimPrefix opt "type=") bar)
                           else []) opts)).
    { apply in_flat_map. exists opt. split; [exact Hin|].
      rewrite Hp, Es. left. reflexivity. }
    rewrite Hnil in Hin'. exact Hin'.
Qed.

(** The declared type of a field whose canonical tag has a [type=] option
    is not inspected: with any other type in its place the struct gives
    the same result, node and error alike. *)
Theorem overridden_field_type_is_not_inspected
    fb n pre post name raw ty ty' tags tag opt items values :
  Parse raw = inl tags ->
  Get tags "avro" = inl tag ->
  In opt (structtag.Options tag) ->
  strings.HasPrefix opt "type=" = true ->
  inferSchema Parse Get fb
    (TStruct n (pre ++ StructField.mk name raw ty :: post)) items values
  = inferSchema Parse Get fb
      (TStruct n (pre ++ StructField.mk name raw ty' :: post)) items values.
Proof.
  intros HP HG Hin Hp.
  pose proof (typeOptions_hit _ _ Hin Hp) as Hty.
  rewrite !inferSchema_TStruct.
  assert (Hfs : inferFields Parse Get fb (pre ++ StructField.mk name raw ty :: post)
                = inferFields Parse Get fb (pre ++ StructField.mk name raw ty' :: post)).
  { induction pre as [|f pre IH].
    - simpl app. rewrite !inferFields_cons.
      rewrite (inferField_type_override Tags Parse Get _ fb
                 (StructField.mk name raw ty) tags tag HP HG Hty).
      rewrite (inferField_type_override Tags Parse Get _ fb
                 (StructField.mk name raw ty') tags tag HP HG Hty).
      reflexivity.
    - simpl app. rewrite !inferFields_cons. rewrite IH.
      rewrite !length_app. reflexivity. }
  rewrite Hfs. reflexivity.
Qed.

Lemma prefix_app p v : String.prefix p (p ++ v) = true.
Proof.
  induction p as [|c p IH]; simpl; [destruct v; reflexivity|].
  destruct (ascii_dec c c) as [_|Hne]; [exact IH|contradiction].
Qed.

Lemma TrimPrefix_app p v : strings.TrimPrefix (p ++ v) p = v.
Proof.
  induction p as [|c p IH]; simpl.
  - destruct v; reflexivity.
  - rewrite Ascii.eqb_refl, prefix_app. simpl. exact IH.
Qed.

(** When several [values=] options stand in the canonical tag of a map
    field the last one is used: its value, split at the bars, gives the
    values of the map (a single empty token when the value is empty). *)
Theorem last_values_option_wins
    fb n fs items values s i f mn key elem tags tag pre v post :
  inferSchema Parse Get fb (TStruct n fs) items values = (s, None) ->
  nth_error fs i = Some f ->
  StructField.Type_ f = TMap mn key elem ->
  Parse (StructField.Tag f) = inl tags ->
  Get tags "avro" = inl tag ->
  structtag.Options tag = (pre ++ ("values=" ++ v)%string :: post)%list ->
  Forall (fun opt => strings.HasPrefix opt "type=" = false) (structtag.Options tag) ->
  Forall (fun opt => strings.HasPrefix opt "values=" = false) post ->
  type_Kind key = reflect.Leaf reflect.String
  /\ nth_error (TS.Fields s) i
     = Some (mkTypedSchema (structtag.Name tag) (Str "map") [Str "map"] [] Nil
               (map Str (strings.Split v bar))
               (spec_collapse (map Str (strings.Split v bar))) []).
Proof.
  intros Hs Hi Hty HP HG Hopts Hnotype Hpost.
  rewrite inferSchema_TStruct in Hs. cbv zeta in Hs.
  destruct (inferFields Parse Get fb fs) as [slots [x|]] eqn:Ef; [discriminate|].
  inversion Hs; subst s; clear Hs. simpl.
  apply inferFields_ok in Ef.
  destruct (Forall2_nth_error _ _ _ _ _ Ef Hi) as (slot & Hslot & Hf).
  rewrite Hslot.
  unfold inferField, fieldTags in Hf. rewrite HP, HG in Hf.
  rewrite (typeOptions_none _ Hnotype) in Hf.
  assert (Hvalues : lastOption "values=" (structtag.Options tag)
                    = Some (strings.Split v bar)).
  { rewrite Hopts.
    rewrite (lastOption_last "values=" pre ("values=" ++ v)%string post);
      [rewrite TrimPrefix_app; reflexivity
      | apply (prefix_app "values=" v)
      | exact Hpost]. }
  rewrite Hvalues, Hty in Hf. simpl in Hf.
  destruct (reflect.Kind_eqb (type_Kind key) (reflect.Leaf reflect.String)) eqn:Ek;
    simpl in Hf; [|discriminate].
  split; [apply Kind_eqb_eq; exact Ek|].
  inversion Hf; subst slot. f_equal.
  destruct (map Str (strings.Split v bar)) as [|a [|b l]]; reflexivity.
Qed.

(** The options of a tag under the fallback key are not read: a field
    without a canonical tag is inferred from its declared type without
    overrides, and named by the fallback tag or by its identifier. *)
Theorem fallback_tag_options_are_ignored fb n fs items values s i f tags e :
  inferSchema Parse Get fb (TStruct n fs) items values = (s, None) ->
  nth_error fs i = Some f ->
  Parse (StructField.Tag f) = inl tags ->
  Get tags "avro" = inr e ->
  exists r,
    inferSchema Parse Get fb (StructField.Type_ f) None None = (r, None)
    /\ nth_error (TS.Fields s) i
       = Some (TS.set_Name r
                 match Get tags fb with
                 | inl tag => structtag.Name tag
                 | inr _ => StructField.Name f
                 end).
Proof.
  intros Hs Hi HP HG.
  rewrite inferSchema_TStruct in Hs. cbv zeta in Hs.
  destruct (inferFields Parse Get fb fs) as [slots [x|]] eqn:Ef; [discriminate|].
  inversion Hs; subst s; clear Hs. simpl.
  apply inferFields_ok in Ef.
  destruct (Forall2_nth_error _ _ _ _ _ Ef Hi) as (slot & Hslot & Hf).
  rewrite Hslot.
  unfold inferField, fieldTags in Hf. rewrite HP, HG in Hf.
  destruct (Get tags fb) as [tag|e'];
    destruct (inferSchema Parse Get fb (StructField.Type_ f) None None)
      as [r [x|]]; try discriminate;
    inversion Hf; subst; exists r; split; reflexivity.
Qed.

(** *** The earlier versions *)

Lemma V1_inferSchema_TStruct n fs :
  V1.inferSchema Parse Get (TStruct n fs) =
  let s := TS.set_types (TS.set_Name TS.zero n) [Str "record"] in
  let '(slots, err) := V1.inferFields Parse Get fs in
  match err with
  | Some err => (TS.set_Fields s slots, Some err)
  | None => (collapse (TS.set_Fields s slots), None)
  end.
Proof. reflexivity. Qed.

Lemma V2_inferSchema_TStruct tag n fs :
  V2.inferSchema Parse Get tag (TStruct n fs) =
  let s := TS.set_types (TS.set_Name TS.zero n) [Str "record"] in
  let '(slots, err) := V2.inferFields Parse Get tag fs in
  match err with
  | Some err => (TS.set_Fields s slots, Some err)
  | None => (collapse (TS.set_Fields s slots), None)
  end.
Proof. reflexivity. Qed.

Lemma V2_inferFields_cons tag f rest :
  V2.inferFields Parse Get tag (f :: rest)
  = let '(slot, err) := V2.inferField Parse Get (V2.inferSchema Parse Get tag) tag f in
    match err with
    | Some err => (slot :: repeat TS.zero (length rest), Some err)
    | None =>
        let '(slots, err) := V2.inferFields Parse Get tag rest in (slot :: slots, err)
    end.
Proof. reflexivity. Qed.

Lemma V1_inferFields_cons f rest :
  V1.inferFields Parse Get (f :: rest)
  = let '(slot, err) := V1.inferField Parse Get (V1.inferSchema Parse Get) f in
    match err with
    | Some err => (slot :: repeat TS.zero (length rest), Some err)
    | None =>
        let '(slots, err) := V1.inferFields Parse Get rest in (slot :: slots, err)
    end.
Proof. reflexivity. Qed.

Lemma V2_avro_inferSchema t :
  V2.inferSchema Parse Get "avro" t = V1.inferSchema Parse Get t.
Proof.
  induction t as [n el IH|n fs IH|n el IH|n k el IHk IHe|n k] using rtype_fields_ind.
  - simpl. rewrite IH. reflexivity.
  - rewrite V1_inferSchema_TStruct, V2_inferSchema_TStruct.
    assert (Hfs : V2.inferFields Parse Get "avro" fs = V1.inferFields Parse Get fs).
    { induction IH as [|f rest Hf _ IHrest]; [reflexivity|].
      rewrite V1_inferFields_cons, V2_inferFields_cons, IHrest.
      unfold V1.inferField, V2.inferField. rewrite Hf. reflexivity. }
    rewrite Hfs. reflexivity.
  - simpl. rewrite IH. reflexivity.
  - simpl. rewrite IHe. reflexivity.
  - reflexivity.
Qed.

(** The second version under the key [avro], and under the empty key
    that stands for it, is the first version: same node and same error
    from [inferSchema], same text and same error from [InferSchema]. *)
Theorem V2_with_avro_is_V1 t :
  V2.inferSchema Parse Get "avro" t = V1.inferSchema Parse Get t
  /\ V2.InferSchema Parse Get encodeString "avro" t
     = V1.InferSchema Parse Get encodeString t
  /\ V2.InferSchema Parse Get encodeString "" t
     = V1.InferSchema Parse Get encodeString t.
Proof.
  split; [apply V2_avro_inferSchema|].
  unfold V2.InferSchema, V1.InferSchema. simpl.
  rewrite V2_avro_inferSchema. split; reflexivity.
Qed.

Lemma plain_fields_same_as_V2 fs :
  Forall
    (fun f =>
       plain Parse Get (StructField.Type_ f) = true ->
       fst (inferSchema Parse Get "avro" (StructField.Type_ f) None None)
       = fst (V2.inferSchema Parse Get "avro" (StructField.Type_ f))
       /\ failed (inferSchema Parse Get "avro" (StructField.Type_ f) None None)
          = failed (V2.inferSchema Parse Get "avro" (StructField.Type_ f)))
    fs ->
  forallb (fun f => plainField Parse Get f && plain Parse Get (StructField.Type_ f)) fs
  = true ->
  fst (inferFields Parse Get "avro" fs) = fst (V2.inferFields Parse Get "avro" fs)
  /\ failed (inferFields Parse Get "avro" fs)
     = failed (V2.inferFields Parse Get "avro" fs).
Proof.
  induction 1 as [|f rest Hf _ IH]; intros Hp; [split; reflexivity|].
  simpl in Hp. apply andb_prop in Hp. destruct Hp as [Hf' Hrest].
  apply andb_prop in Hf'. destruct Hf' as [Hplain Hplain_ty].
  destruct (IH Hrest) as [IHfst IHfailed]. destruct (Hf Hplain_ty) as [Hfst Hfailed].
  rewrite inferFields_cons, V2_inferFields_cons.
  unfold inferField, V2.inferField.
  destruct (Parse (StructField.Tag f)) as [tags|perr] eqn:EP; [|split; reflexivity].
  rewrite (plainField_fieldTags "avro" f tags Hplain EP).
  unfold failed in *.
  destruct (inferSchema Parse Get "avro" (StructField.Type_ f) None None)
    as [slot [x|]];
    destruct (V2.inferSchema Parse Get "avro" (StructField.Type_ f))
      as [slot' [x'|]]; simpl in *; try discriminate; subst slot'.
  - split; reflexivity.
  - assert (Hname : (match Get tags "avro" with
                     | inl tag => (TS.set_Name slot (structtag.Name tag), @None error)
                     | inr _ => (TS.set_Name slot (StructField.Name f), None)
                     end)
                    = (TS.set_Name slot
                         (spec_resolved_name Get "avro" tags (StructField.Name f)),
                       None)).
    { unfold spec_resolved_name. destruct (Get tags "avro"); reflexivity. }
    rewrite Hname.
    destruct (inferFields Parse Get "avro" rest) as [slots err];
      destruct (V2.inferFields Parse Get "avro" rest) as [slots' err'].
    simpl in *. subst slots'. split; [reflexivity|exact IHfailed].
Qed.

Lemma plain_same_as_V2 t :
  plain Parse Get t = true ->
  fst (inferSchema Parse Get "avro" t None None)
  = fst (V2.inferSchema Parse Get "avro" t)
  /\ failed (inferSchema Parse Get "avro" t None None)
     = failed (V2.inferSchema Parse Get "avro" t).
Proof.
  induction t as [n el IH|n fs IH|n el IH|n k el IHk IHe|n k] using rtype_fields_ind;
    intros Hp.
  - simpl in *. destruct (IH Hp) as [Hfst Hfailed]. unfold failed in *.
    destruct (inferSchema Parse Get "avro" el None None) as [typ [x|]];
      destruct (V2.inferSchema Parse Get "avro" el) as [typ' [x'|]];
      simpl in *; try discriminate; subst; split; reflexivity.
  - rewrite inferSchema_TStruct, V2_inferSchema_TStruct. cbv zeta.
    simpl in Hp. destruct (plain_fields_same_as_V2 fs IH Hp) as [Hfst Hfailed].
    unfold failed in *.
    destruct (inferFields Parse Get "avro" fs) as [slots [x|]];
      destruct (V2.inferFields Parse Get "avro" fs) as [slots' [x'|]];
      simpl in *; try discriminate; subst; split; reflexivity.
  - simpl in *. destruct (IH Hp) as [Hfst Hfailed]. unfold failed in *.
    destruct (inferSchema Parse Get "avro" el None None) as [typ [x|]];
      destruct (V2.inferSchema Parse Get "avro" el) as [typ' [x'|]];
      simpl in *; try discriminate; subst; split; reflexivity.
  - simpl in *.
    destruct (negb (reflect.Kind_eqb (type_Kind k) (reflect.Leaf reflect.String)));
      [split; reflexivity|].
    destruct (IHe Hp) as [Hfst Hfailed]. unfold failed in *.
    destruct (inferSchema Parse Get "avro" el None None) as [typ [x|]];
      destruct (V2.inferSchema Parse Get "avro" el) as [typ' [x'|]];
      simpl in *; try discriminate; subst; split; reflexivity.
  - destruct k; split; reflexivity.
Qed.

(** On a type whose canonical tags carry no [type=], [items=] or
    [values=] option, the present version under the fallback key [avro]
    and the second version under the key [avro] build the same node and
    fail on the same types, and their [InferSchema] return the same
    text. *)
Theorem plain_types_same_as_V2 t :
  plain Parse Get t = true ->
  fst (inferSchema Parse Get "avro" t None None)
  = fst (V2.inferSchema Parse Get "avro" t)
  /\ failed (inferSchema Parse Get "avro" t None None)
     = failed (V2.inferSchema Parse Get "avro" t)
  /\ fst (InferSchema Parse Get encodeString "avro" t)
     = fst (V2.InferSchema Parse Get encodeString "avro" t)
  /\ failed (InferSchema Parse Get encodeString "avro" t)
     = failed (V2.InferSchema Parse Get encodeString "avro" t).
Proof.
  intros Hp. destruct (plain_same_as_V2 t Hp) as [Hfst Hfailed].
  split; [exact Hfst|]. split; [exact Hfailed|].
  unfold InferSchema, V2.InferSchema, failed in *. simpl.
  destruct (inferSchema Parse Get "avro" t None None) as [s [x|]];
    destruct (V2.inferSchema Parse Get "avro" t) as [s' [x'|]];
    simpl in *; try discriminate; subst; split; reflexivity.
Qed.

End Coverage.


(** ** The second version: names and errors *)

Section SecondVersion.

Variable Tags : Type.
Variable Parse : string -> Tags + error.
Variable Get : Tags -> string -> structtag.Tag + error.

Lemma V2_inferFields_named tag fs slots :
  V2.inferFields Parse Get tag fs = (slots, None) ->
  Forall2
    (fun f slot =>
       exists tags r,
         Parse (StructField.Tag f) = inl tags
         /\ V2.inferSchema Parse Get tag (StructField.Type_ f) = (r, None)
         /\ slot = TS.set_Name r
                     match Get tags tag with
                     | inl tg => structtag.Name tg
                     | inr _ => StructField.Name f
                     end)
    fs slots.
Proof.
  revert slots. induction fs as [|f rest IH]; intros slots.
  - intros H. inversion H. constructor.
  - rewrite V2_inferFields_cons. unfold V2.inferField.
    destruct (Parse (StructField.Tag f)) as [tags|perr] eqn:EP; [|discriminate].
    destruct (V2.inferSchema Parse Get tag (StructField.Type_ f)) as [r [x|]] eqn:Er;
      [discriminate|].
    destruct (V2.inferFields Parse Get tag rest) as [slots' err'].
    destruct (Get tags tag) as [tg|e] eqn:EG; intros H; inversion H; subst;
      (constructor; [|apply IH; reflexivity]);
      exists tags, r; rewrite EG; repeat split; assumption.
Qed.

(** In the second version the name of a field's node is the name of the
    tag under the given key, else the declared identifier; a tag under
    the key [avro] plays no part unless it is the given key, and the node
    is that of the field's type with its name replaced. *)
Theorem V2_field_names tag n fs s :
  V2.inferSchema Parse Get tag (TStruct n fs) = (s, None) ->
  Forall2
    (fun f slot =>
       exists tags r,
         Parse (StructField.Tag f) = inl tags
         /\ V2.inferSchema Parse Get tag (StructField.Type_ f) = (r, None)
         /\ slot = TS.set_Name r
                     match Get tags tag with
                     | inl tg => structtag.Name tg
                     | inr _ => StructField.Name f
                     end)
    fs (TS.Fields s).
Proof.
  rewrite V2_inferSchema_TStruct. cbv zeta.
  destruct (V2.inferFields Parse Get tag fs) as [slots [x|]] eqn:Ef; [discriminate|].
  intros H. inversion H; subst. simpl.
  apply V2_inferFields_named. exact Ef.
Qed.

Lemma V2_inferFields_errors tag fs :
  Forall
    (fun f => forall s e,
         V2.inferSchema Parse Get tag (StructField.Type_ f) = (s, Some e) ->
         e = InvalidMapKey \/ e = errorString "unsupported type"
         \/ exists raw, Parse raw = inr e)
    fs ->
  forall slots e,
    V2.inferFields Parse Get tag fs = (slots, Some e) ->
    e = InvalidMapKey \/ e = errorString "unsupported type"
    \/ exists raw, Parse raw = inr e.
Proof.
  induction 1 as [|f rest Hf _ IH]; intros slots e.
  - discriminate.
  - rewrite V2_inferFields_cons. unfold V2.inferField.
    destruct (Parse (StructField.Tag f)) as [tags|perr] eqn:EP.
    + destruct (V2.inferSchema Parse Get tag (StructField.Type_ f)) as [r [x|]] eqn:Er.
      * intros H. inversion H; subst. eapply Hf. reflexivity.
      * destruct (V2.inferFields Parse Get tag rest) as [slots' [y|]];
          destruct (Get tags tag); intros H; inversion H; subst;
          eapply IH; reflexivity.
    + intros H. inversion H; subst. right. right. eauto.
Qed.

(** The second version returns its errors as they are, without a marker:
    the map-key error, the error [unsupported type] (which does not name
    the kind), or the error the tag parser returned. *)
Theorem V2_errors_are_bare tag t :
  forall s e,
    V2.inferSchema Parse Get tag t = (s, Some e) ->
    e = InvalidMapKey \/ e = errorString "unsupported type"
    \/ exists raw, Parse raw = inr e.
Proof.
  induction t as [n el IH|n fs IH|n el IH|n k el IHk IHe|n k] using rtype_fields_ind;
    intros s e.
  - simpl. destruct (V2.inferSchema Parse Get tag el) as [typ [x|]] eqn:E;
      intros H; inversion H; subst. eapply IH; first [exact E | reflexivity].
  - rewrite V2_inferSchema_TStruct. cbv zeta.
    destruct (V2.inferFields Parse Get tag fs) as [slots [x|]] eqn:E;
      intros H; inversion H; subst.
    eapply V2_inferFields_errors; eassumption.
  - simpl. destruct (V2.inferSchema Parse Get tag el) as [typ [x|]] eqn:E;
      intros H; inversion H; subst. eapply IH; first [exact E | reflexivity].
  - simpl.
    destruct (negb (reflect.Kind_eqb (type_Kind k) (reflect.Leaf reflect.String))).
    + intros H; inversion H; subst. left. reflexivity.
    + destruct (V2.inferSchema Parse Get tag el) as [typ [x|]] eqn:E;
        intros H; inversion H; subst. eapply IHe; first [exact E | reflexivity].
  - destruct k; simpl; intros H; inversion H; subst; right; left; reflexivity.
Qed.

End SecondVersion.

(** ** The further properties at concrete types *)

(** The test of infer_test.go calls the first version. *)
Example TestInferSchema_first_version :
  V1.InferSchema structtag.Parse structtag.Get quote A_t
  = (q "{'name':'A','type':'record','fields':[{'name':'b','type':'string'},{'name':'C','type':'int'},{'name':'E','type':'record','fields':[{'name':'F','type':'string'}]}]}",
     None).
Proof. vm_compute. reflexivity. Qed.

Lemma returned_node_shape_witness :
  inferSchema_ref "" A_t None None = (A_node, None)
  /\ TS.Name A_node = type_Name A_t
  /\ TS.types A_node <> [].
Proof.
  split; [reflexivity|].
  pose proof (returned_node_shape structtag.Tags structtag.Parse structtag.Get
                "" A_t None None A_node eq_refl) as H.
  split; [exact (proj1 H) | exact (proj1 (proj2 H))].
Defined.

Lemma struct_fields_count_witness :
  inferSchema_ref "" bad_tag None None
  = (mkTypedSchema "S" Nil [Str "record"] [] Nil [] Nil
       [leaf_node "a" "int"; TS.zero; TS.zero],
     Some (wrapError "struct: " structtag.errTagSyntax))
  /\ length
       (TS.Fields
          (mkTypedSchema "S" Nil [Str "record"] [] Nil [] Nil
             [leaf_node "a" "int"; TS.zero; TS.zero])) = 3.
Proof.
  split; [reflexivity|].
  exact (proj1 (struct_fields_count structtag.Tags structtag.Parse structtag.Get
                  "" "S"
                  [field "A" "avro:'a'" int_t; field "B" "avro" string_t;
                   field "C" "" chan_t]
                  None None
                  (fst (inferSchema_ref "" bad_tag None None))
                  (snd (inferSchema_ref "" bad_tag None None)) eq_refl)).
Defined.

Lemma overrides_consumed_by_their_kind_witness :
  type_Kind (PtrTo (TSlice "" int_t)) <> reflect.Slice
  /\ inferSchema_ref "" (PtrTo (TSlice "" int_t)) (Some ["x"]) None
     = inferSchema_ref "" (PtrTo (TSlice "" int_t)) None None.
Proof.
  split; [discriminate|].
  apply (proj1 (overrides_consumed_by_their_kind structtag.Tags structtag.Parse
                  structtag.Get "" (PtrTo (TSlice "" int_t)) (Some ["x"]) None)).
  discriminate.
Defined.

Lemma struct_first_error_wins_witness :
  inferSchema_ref "" (TStruct "S" [field "A" "avro:'a'" int_t; field "B" "avro" string_t])
    None None
  = (mkTypedSchema "S" Nil [Str "record"] [] Nil [] Nil [leaf_node "a" "int"; TS.zero],
     Some (wrapError "struct: " structtag.errTagSyntax))
  /\ snd (inferSchema_ref "" bad_tag None None)
     = Some (wrapError "struct: " structtag.errTagSyntax).
Proof.
  split; [reflexivity|].
  exact (proj1 (struct_first_error_wins structtag.Tags structtag.Parse structtag.Get
                  "" "S" [field "A" "avro:'a'" int_t; field "B" "avro" string_t]
                  None None
                  (mkTypedSchema "S" Nil [Str "record"] [] Nil [] Nil
                     [leaf_node "a" "int"; TS.zero])
                  (wrapError "struct: " structtag.errTagSyntax)
                  eq_refl [field "C" "" chan_t] "S" None None)).
Defined.

Lemma InferSchema_text_or_error_witness :
  snd (inferSchema_ref "" deep_chan None None)
  = Some (wrapError "ptr: " (wrapError "slice: " (wrapError "map: " (wrapError "ptr: "
            (wrapError "default: " (UnsupportedKind (reflect.Leaf reflect.Chan)))))))
  /\ walk_error structtag.Parse deep_chan
       (wrapError "ptr: " (wrapError "slice: " (wrapError "map: " (wrapError "ptr: "
          (wrapError "default: " (UnsupportedKind (reflect.Leaf reflect.Chan))))))).
Proof.
  split; [reflexivity|].
  exact (proj1 (InferSchema_text_or_error structtag.Tags structtag.Parse structtag.Get
                  quote "" deep_chan) None None
           (fst (inferSchema_ref "" deep_chan None None)) _ eq_refl).
Defined.

Lemma supported_types_are_inferred_witness :
  supported structtag.Parse A_t = true
  /\ snd (inferSchema_ref "json" A_t None None) = None
  /\ snd (InferSchema_ref "json" A_t) = None.
Proof.
  split; [reflexivity|].
  exact (supported_types_are_inferred structtag.Tags structtag.Parse structtag.Get
           quote A_t eq_refl "json" None None).
Defined.

Lemma plain_types_inferred_iff_supported_witness :
  plain structtag.Parse structtag.Get bad_tag = true
  /\ (snd (inferSchema_ref "" bad_tag None None) = None
      <-> supported structtag.Parse bad_tag = true).
Proof.
  split; [reflexivity|].
  exact (plain_types_inferred_iff_supported structtag.Tags structtag.Parse
           structtag.Get "" bad_tag eq_refl).
Defined.

Lemma overridden_field_type_is_not_inspected_witness :
  inferSchema_ref "" override_xy None None
  = inferSchema_ref "" (TStruct "S" [field "B" "avro:'b,type=x|y'" chan_t]) None None.
Proof.
  exact (overridden_field_type_is_not_inspected structtag.Tags structtag.Parse
           structtag.Get "" "S" [] [] "B" (q "avro:'b,type=x|y'") E_t chan_t
           [structtag.mkTag "avro" "b" ["type=x|y"]]
           (structtag.mkTag "avro" "b" ["type=x|y"]) "type=x|y" None None
           eq_refl eq_refl (or_introl eq_refl) eq_refl).
Defined.

Lemma last_values_option_wins_witness :
  snd (inferSchema_ref "" values_twice None None) = None
  /\ nth_error (TS.Fields (fst (inferSchema_ref "" values_twice None None))) 1
     = Some (mkTypedSchema "m" (Str "map") [Str "map"] [] Nil
               [Str "b"; Str "c"] (List [Str "b"; Str "c"]) []).
Proof.
  split; [reflexivity|].
  refine (proj2 (last_values_option_wins structtag.Tags structtag.Parse structtag.Get
                   "" "S"
                   [field "A" "" int_t;
                    field "M" "avro:'m,values=a,values=b|c'" (TMap "" string_t chan_t)]
                   None None (fst (inferSchema_ref "" values_twice None None)) 1
                   (field "M" "avro:'m,values=a,values=b|c'" (TMap "" string_t chan_t))
                   "" string_t chan_t
                   [structtag.mkTag "avro" "m" ["values=a"; "values=b|c"]]
                   (structtag.mkTag "avro" "m" ["values=a"; "values=b|c"])
                   ["values=a"] "b|c" []
                   eq_refl eq_refl eq_refl eq_refl eq_refl eq_refl _ _)).
  - repeat constructor.
  - constructor.
Defined.

Lemma fallback_tag_options_are_ignored_witness :
  snd (inferSchema_ref "json" fallback_options None None) = None
  /\ exists r,
      inferSchema_ref "json" (TSlice "" int_t) None None = (r, None)
      /\ nth_error (TS.Fields (fst (inferSchema_ref "json" fallback_options None None))) 0
         = Some (TS.set_Name r "j").
Proof.
  split; [reflexivity|].
  exact (fallback_tag_options_are_ignored structtag.Tags structtag.Parse structtag.Get
           "json" "S" [field "J" "json:'j,type=x,items=y'" (TSlice "" int_t)]
           None None (fst (inferSchema_ref "json" fallback_options None None)) 0
           (field "J" "json:'j,type=x,items=y'" (TSlice "" int_t))
           [structtag.mkTag "json" "j" ["type=x"; "items=y"]] structtag.errTagNotExist
           eq_refl eq_refl eq_refl eq_refl).
Defined.

Lemma plain_types_same_as_V2_witness :
  plain structtag.Parse structtag.Get A_t = true
  /\ fst (InferSchema_ref "avro" A_t)
     = fst (V2.InferSchema structtag.Parse structtag.Get quote "avro" A_t).
Proof.
  split; [reflexivity|].
  exact (proj1 (proj2 (proj2 (plain_types_same_as_V2 structtag.Tags structtag.Parse
                                structtag.Get quote A_t eq_refl)))).
Defined.

Lemma V2_field_names_witness :
  V2.inferSchema structtag.Parse structtag.Get "json"
    (TStruct "S" [field "B" "avro:'b' json:'c'" string_t])
  = (mkTypedSchema "S" (Str "record") [Str "record"] [] Nil [] Nil
       [leaf_node "c" "string"], None)
  /\ Forall2
       (fun f slot =>
          exists tags r,
            structtag.Parse (StructField.Tag f) = inl tags
            /\ V2.inferSchema structtag.Parse structtag.Get "json"
                 (StructField.Type_ f) = (r, None)
            /\ slot = TS.set_Name r
                        match structtag.Get tags "json" with
                        | inl tg => structtag.Name tg
                        | inr _ => StructField.Name f
                        end)
       [field "B" "avro:'b' json:'c'" string_t] [leaf_node "c" "string"].
Proof.
  split; [reflexivity|].
  exact (V2_field_names structtag.Tags structtag.Parse structtag.Get "json" "S"
           [field "B" "avro:'b' json:'c'" string_t]
           (mkTypedSchema "S" (Str "record") [Str "record"] [] Nil [] Nil
              [leaf_node "c" "string"]) eq_refl).
Defined.

Lemma V2_errors_are_bare_witness :
  V2.inferSchema structtag.Parse structtag.Get "" deep_chan
  = (mkTypedSchema "" Nil [] [] Nil [] Nil [], Some (errorString "unsupported type"))
  /\ (errorString "unsupported type" = InvalidMapKey
      \/ errorString "unsupported type" = errorString "unsupported type"
      \/ exists raw, structtag.Parse raw = inr (errorString "unsupported type")).
Proof.
  split; [reflexivity|].
  exact (V2_errors_are_bare structtag.Tags structtag.Parse structtag.Get "" deep_chan
           (mkTypedSchema "" Nil [] [] Nil [] Nil [])
           (errorString "unsupported type") eq_refl).
Defined.
